(** * scripts/config.py: template reconciliation and the Config singleton

    A shallow embedding of [Config.update_env_from_template] and
    [Config.__init__] of scripts/config.py, with the facts of the
    specification that concern them.

    Conventions of the embedding.
    - A Python [str] is a Rocq [string]; a character is read as the code
      point of its number (0..255), which fixes what [str.strip],
      [str.lower] and [int] see as whitespace, letters and digits.
    - The dictionaries returned by [dotenv_values] are insertion-ordered, so
      they are association lists; the order is the order of the prompts.
    - The files, the process environment, the console and the [openai]
      module are fields of a [world] threaded through a state-and-exception
      monad; an exception keeps the world reached so far, as in Python.
    - The [.env] file of the world is the mapping [dotenv_values] read from
      it, updated by each [set_key] with the value as passed and by each
      [unset_key]; the calls on files are taken to succeed.  Within one run
      the code never reads a line it has written.  What a later run reads
      from the lines written is given apart, by [read_back] and
      [store_as_read]. *)

From Stdlib Require Import Ascii ZArith.
From stdpp Require Import gmap strings list.

Open Scope Z_scope.

(** ** Python strings *)

Definition code (c : ascii) : nat := nat_of_ascii c.

(** [str.isspace] on one character (code points below 256). *)
Definition is_space (c : ascii) : bool :=
  let n := code c in
  ((9 <=? n) && (n <=? 13) || (28 <=? n) && (n <=? 32)
   || (n =? 133) || (n =? 160))%nat.

Fixpoint lstrip (s : string) : string :=
  match s with
  | String c s' => if is_space c then lstrip s' else s
  | EmptyString => EmptyString
  end.

Fixpoint rstrip (s : string) : string :=
  match s with
  | EmptyString => EmptyString
  | String c s' =>
      match rstrip s' with
      | EmptyString => if is_space c then EmptyString else String c EmptyString
      | r => String c r
      end
  end.

(** [s.strip()] *)
Definition strip (s : string) : string := rstrip (lstrip s).

Fixpoint all_space (s : string) : bool :=
  match s with
  | EmptyString => true
  | String c s' => is_space c && all_space s'
  end.

(** [c.lower()] on one character: A-Z and the Latin-1 capitals. *)
Definition lower_char (c : ascii) : ascii :=
  let n := code c in
  if ((65 <=? n) && (n <=? 90)
      || (192 <=? n) && (n <=? 222) && negb (n =? 215))%nat
  then ascii_of_nat (n + 32) else c.

Fixpoint lower (s : string) : string :=
  match s with
  | EmptyString => EmptyString
  | String c s' => String (lower_char c) (lower s')
  end.

(** Truth value of a string: [if s:] *)
Definition truthy (s : string) : bool := negb (bool_decide (s = "")).

(** [sep.join(l)] *)
Fixpoint join (sep : string) (l : list string) : string :=
  match l with
  | [] => ""
  | [x] => x
  | x :: l' => x +:+ sep +:+ join sep l'
  end.

(** *** [int(s)] on a string

    Base 10, as [PyLong_FromString] reads it: blanks, an optional sign,
    decimal digits in which single underscores may separate digits, blanks.
    [None] stands for [ValueError]. *)

Definition int_space (c : ascii) : bool :=
  let n := code c in
  ((9 <=? n) && (n <=? 13) || (n =? 32) || (n =? 133) || (n =? 160))%nat.

Definition digit_of (c : ascii) : option Z :=
  let n := code c in
  if ((48 <=? n) && (n <=? 57))%nat then Some (Z.of_nat (n - 48)) else None.

Inductive scan_state := AtStart | AfterDigit | AfterUnderscore.

(** [sys.int_info.default_max_str_digits] *)
Definition max_str_digits : nat := 4300.

Fixpoint scan_digits (st : scan_state) (acc : Z) (count : nat) (s : string)
  : option (Z * nat * string) :=
  match s with
  | EmptyString =>
      match st with AfterDigit => Some (acc, count, s) | _ => None end
  | String c s' =>
      match digit_of c with
      | Some d => scan_digits AfterDigit (10 * acc + d) (S count) s'
      | None =>
          if bool_decide (c = "_"%char) then
            match st with
            | AfterDigit => scan_digits AfterUnderscore acc count s'
            | _ => None
            end
          else
            match st with AfterDigit => Some (acc, count, s) | _ => None end
      end
  end.

Fixpoint skip_int_space (s : string) : string :=
  match s with
  | String c s' => if int_space c then skip_int_space s' else s
  | EmptyString => EmptyString
  end.

Definition int_of_str (s : string) : option Z :=
  let s1 := skip_int_space s in
  let '(sign, s2) :=
    match s1 with
    | String c s' =>
        if bool_decide (c = "+"%char) then (1, s')
        else if bool_decide (c = "-"%char) then (-1, s')
        else (1, s1)
    | EmptyString => (1, s1)
    end in
  match scan_digits AtStart 0 0 s2 with
  | Some (n, count, rest) =>
      if bool_decide (skip_int_space rest = "") && (count <=? max_str_digits)%nat
      then Some (sign * n) else None
  | None => None
  end.

(** ** The key-value store

    python-dotenv ([dotenv_values], [set_key], [unset_key], [load_dotenv]) is
    a third-party package, not part of the repository.  Following sections
    3, 4.1 and 6 of the specification a parsed file is an ordered mapping
    from string keys to string values, and [set_key]/[unset_key] are the
    ordinary mapping operations on the file.  Quoting, comments, variable
    interpolation and lines without [=] are below this abstraction. *)

Abbreviation dict := (list (string * string)).

Definition keys (d : dict) : list string := d.*1.

(** [key in d] *)
Definition dict_mem (k : string) (d : dict) : bool := bool_decide (k ∈ keys d).

(** The mapping's lookup; [d.get(k, default)] is [default dflt (dict_get d k)]. *)
Fixpoint dict_get (d : dict) (k : string) : option string :=
  match d with
  | [] => None
  | (k', v) :: d' => if bool_decide (k' = k) then Some v else dict_get d' k
  end.

(** Modelled from the spec: [set_key] on the mapping of a file (section
    4.1, [set]); the line of an existing key is rewritten in place, a new
    key gets a line at the end. *)
Definition dict_set (d : dict) (k v : string) : dict :=
  if dict_mem k d
  then (λ kv : string * string, if bool_decide (kv.1 = k) then (k, v) else kv) <$> d
  else d ++ [(k, v)].

(** Modelled from the spec: [unset_key] on the mapping of a file (section
    4.1, [unset]); the lines of the key are dropped. *)
Definition dict_unset (d : dict) (k : string) : dict :=
  filter (λ kv : string * string, kv.1 ≠ k) d.

(** A dictionary holds each key once. *)
Definition wf_dict (d : dict) : Prop := NoDup (keys d).

(** ** The diff of [update_env_from_template] (lines 57-61) *)

(** [[key for key in env_values if key not in template_values]] *)
Definition removed_keys (env_values template_values : dict) : list string :=
  filter (λ key, key ∉ keys template_values) (keys env_values).

(** [{key: value for key, value in template_values.items()
      if env_values.get(key, '') == '' and value != ''}] *)
Definition changes (env_values template_values : dict) : dict :=
  filter (λ kv : string * string,
            default "" (dict_get env_values kv.1) = "" ∧ kv.2 ≠ "")
         template_values.

(** ** Python values, exceptions, and the world *)

Inductive pyval :=
  | PyNone
  | PyBool (b : bool)
  | PyInt (n : Z)
  | PyStr (s : string)
  | PyDict (d : dict).

#[global] Instance pyval_eq_dec : EqDecision pyval.
Proof. solve_decision. Defined.

(** An instance's [__dict__]: attribute name to value. *)
Abbreviation object := (gmap string pyval).

Inductive exn := EOFError | ValueError | TypeError | AttributeError.

Inductive result (A : Type) :=
  | Ok (a : A)
  | Raise (e : exn).
Arguments Ok {A} a.
Arguments Raise {A} e.

(** What the run does to the console and to the [.env] file, oldest first. *)
Inductive event :=
  | Print (line : string)
  | Prompt (text : string)
  | Touch
  | SetKey (key value : string)
  | UnsetKey (key : string).

Record world := World {
  env_path : string;                 (* str(env_file) *)
  template_file : option dict;       (* .env.template; None: not a file *)
  env_file : option dict;            (* .env; None: not a file *)
  environ : gmap string string;      (* os.environ *)
  stdin : list string;               (* the lines input() will read *)
  trace : list event;
  openai : gmap string pyval;        (* attributes set on the openai module *)
  instances : option object          (* Singleton._instances[Config] *)
}.

Definition emit (e : event) (w : world) : world :=
  World (env_path w) (template_file w) (env_file w) (environ w) (stdin w)
        (trace w ++ [e]) (openai w) (instances w).

Definition with_env_file (f : option dict) (w : world) : world :=
  World (env_path w) (template_file w) f (environ w) (stdin w)
        (trace w) (openai w) (instances w).

Definition with_environ (e : gmap string string) (w : world) : world :=
  World (env_path w) (template_file w) (env_file w) e (stdin w)
        (trace w) (openai w) (instances w).

Definition with_stdin (l : list string) (w : world) : world :=
  World (env_path w) (template_file w) (env_file w) (environ w) l
        (trace w) (openai w) (instances w).

Definition with_openai (o : gmap string pyval) (w : world) : world :=
  World (env_path w) (template_file w) (env_file w) (environ w) (stdin w)
        (trace w) o (instances w).

Definition with_instances (i : option object) (w : world) : world :=
  World (env_path w) (template_file w) (env_file w) (environ w) (stdin w)
        (trace w) (openai w) i.

(** *** The monad: state, and exceptions that keep the state *)

Definition M (A : Type) : Type := world → result A * world.

#[global] Instance M_ret : MRet M := λ A a w, (Ok a, w).

#[global] Instance M_bind : MBind M := λ A B f m w,
  match m w with
  | (Ok a, w') => f a w'
  | (Raise e, w') => (Raise e, w')
  end.

Definition raise {A} (e : exn) : M A := λ w, (Raise e, w).
Definition get_world : M world := λ w, (Ok w, w).
Definition modify (f : world → world) : M unit := λ w, (Ok tt, f w).

(** [for x in l: body(x)] *)
Fixpoint for_each {A} (l : list A) (body : A → M unit) : M unit :=
  match l with
  | [] => mret tt
  | x :: l' => body x ;; for_each l' body
  end.

(** *** Console *)

Definition print (line : string) : M unit := modify (emit (Print line)).

(** [input(prompt)]: shows the prompt, then reads a line or raises
    [EOFError] when the input is exhausted. *)
Definition input (prompt : string) : M string := λ w,
  let w1 := emit (Prompt prompt) w in
  match stdin w with
  | [] => (Raise EOFError, w1)
  | line :: rest => (Ok line, with_stdin rest w1)
  end.

(** *** Files and environment

    The python-dotenv and pathlib calls, as the mapping operations of
    section 4.1 on the two files of the world. *)

Definition is_file (f : option dict) : bool := bool_decide (is_Some f).

(** Modelled from the spec: [dotenv_values(path)], the mapping a file
    parses to (section 4.1, [load]); a missing file reads as the empty
    mapping. *)
Definition dotenv_values (f : option dict) : dict := default [] f.

(** [env_file.touch()]: the file exists afterwards, empty if it is new.
    Like the three python-dotenv calls below, the call is taken to succeed:
    a file system that refuses the operation (section 7, [IOError]) is not
    part of the world modelled here, and the statements of this file are
    about the runs in which these calls succeed. *)
Definition touch : M unit :=
  modify (λ w, emit Touch (with_env_file (Some (dotenv_values (env_file w))) w)).

(** Modelled from the spec: [set_key(env_file, key, value,
    quote_mode="never")] rewrites the file at once (section 4.1, [set]
    followed by [save]).  With [quote_mode="never"] the line written is
    [key=value], the value exactly as passed; the mapping of the world keeps
    that text for the key.  It is the value a later [dotenv_values] reads
    only for a value that needs no quoting (section 6); [read_back] and
    [store_as_read] below give the reading of the other ones, and the facts
    about a later run go through them. *)
Definition set_key (key value : string) : M unit :=
  modify (λ w, emit (SetKey key value)
                 (with_env_file (Some (dict_set (dotenv_values (env_file w)) key value)) w)).

(** Modelled from the spec: [unset_key(env_file, key)] rewrites the file at
    once (section 4.1, [unset] followed by [save]). *)
Definition unset_key (key : string) : M unit :=
  modify (λ w, emit (UnsetKey key)
                 (with_env_file ((λ d, dict_unset d key) <$> env_file w) w)).

(** [os.environ.setdefault(key, value)] *)
Definition setdefault_env (e : gmap string string) (kv : string * string)
  : gmap string string :=
  match e !! kv.1 with
  | Some _ => e
  | None => <[kv.1 := kv.2]> e
  end.

(** Modelled from the spec: [load_dotenv(path)] offers the bindings of the
    file to [os.environ]; a key the environment already has keeps its value
    (no override).  The call is taken to succeed: a file that cannot be
    read, or a binding that [os.environ] refuses (a NUL character in it
    makes the assignment raise [ValueError]), is not part of the world
    modelled here. *)
Definition load_dotenv (f : option dict) : M unit :=
  modify (λ w, with_environ (foldl setdefault_env (environ w) (dotenv_values f)) w).

(** [os.getenv(key, default)]; [os.getenv(key)] has default [None]. *)
Definition getenv (key : string) (dflt : pyval) : M pyval :=
  w ← get_world; mret (from_option PyStr dflt (environ w !! key)).

(** [int(v)] for the values [os.getenv] can hand to it. *)
Definition py_int (v : pyval) : M pyval :=
  match v with
  | PyInt n => mret (PyInt n)
  | PyBool b => mret (PyInt (if b then 1 else 0))
  | PyStr s =>
      match int_of_str s with
      | Some n => mret (PyInt n)
      | None => raise ValueError
      end
  | PyNone | PyDict _ => raise TypeError
  end.

(** [a == b] as a Python value *)
Definition py_eq (a b : pyval) : pyval := PyBool (bool_decide (a = b)).

(** Truth value of an object, for [if v:] *)
Definition py_truthy (v : pyval) : bool :=
  match v with
  | PyNone => false
  | PyBool b => b
  | PyInt n => negb (n =? 0)
  | PyStr s => truthy s
  | PyDict d => negb (bool_decide (d = []))
  end.

(** ** [Config.update_env_from_template] (lines 35-88) *)

(** The escape character of ["\033[..m"] and the double quote. *)
Definition esc : string := String (ascii_of_nat 27) "".
Definition dq : string := String (ascii_of_nat 34) "".

Definition red (s : string) : string := esc +:+ "[31m" +:+ s +:+ esc +:+ "[0m".

Definition msg_template_missing : string :=
  red ("Error: " +:+ dq +:+ ".env.template" +:+ dq +:+ " not found!").
Definition msg_env_missing : string :=
  red ("Error: " +:+ dq +:+ ".env" +:+ dq +:+ " not found!").
Definition msg_removed (removed : list string) : string :=
  esc +:+ "[33m" +:+ "Removed keys from .env.template: " +:+ join ", " removed
      +:+ esc +:+ "[0m".
Definition msg_warning : string :=
  esc +:+ "[93m" +:+ "Warning: You may enter a confidential information."
      +:+ " " +:+ "Do not share this part of the log with third parties."
      +:+ esc +:+ "[0m".

(** [answer.lower() == "y"] *)
Definition is_yes (answer : string) : bool := bool_decide (lower answer = "y").

(** Lines 76-83: one addition. *)
Definition apply_change (kv : string * string) : M unit :=
  let '(key, value) := kv in
  new_value ← input (key +:+ " (" +:+ value +:+ "): ");
  w ← get_world;
  if truthy (strip new_value) then
    set_key key new_value;;
    print ("Updated " +:+ key +:+ " = " +:+ new_value +:+ " in " +:+ env_path w)
  else
    set_key key value;;
    print ("Kept " +:+ key +:+ " = " +:+ value +:+ " in " +:+ env_path w).

(** Lines 84-86: one removal. *)
Definition apply_removal (key : string) : M unit :=
  w ← get_world;
  unset_key key;;
  print ("Removed " +:+ key +:+ " from " +:+ env_path w).

(** Lines 64-69: the diff is shown. *)
Definition report (changes : dict) (removed_keys : list string) : M unit :=
  print "Changes found in .env.template:";;
  (if negb (bool_decide (changes = [])) then
     for_each changes (λ kv, print (kv.1 +:+ " = " +:+ kv.2))
   else mret tt);;
  (if negb (bool_decide (removed_keys = [])) then
     print (msg_removed removed_keys)
   else mret tt).

(** Lines 70-88: one question for the whole merge, then the merge. *)
Definition ask_and_apply (changes : dict) (removed_keys : list string) : M unit :=
  answer ← input "Do you want to apply changes to .env? (y/n) ";
  if is_yes answer then
    print msg_warning;;
    print "Enter new values for the following keys or leave empty to keep the current value:";;
    for_each changes apply_change;;
    for_each removed_keys apply_removal
  else
    print "No changes in .env.template".

(** Lines 53-88: both files are there. *)
Definition reconcile : M unit :=
  w ← get_world;
  load_dotenv (template_file w);;
  w ← get_world;
  let env_values := dotenv_values (env_file w) in
  let template_values := dotenv_values (template_file w) in
  let removed_keys := removed_keys env_values template_values in
  let changes := changes env_values template_values in
  if negb (bool_decide (changes = [])) || negb (bool_decide (removed_keys = [])) then
    report changes removed_keys;;
    ask_and_apply changes removed_keys
  else mret tt.

Definition update_env_from_template : M unit :=
  w ← get_world;
  if negb (is_file (template_file w)) then
    print msg_template_missing
  else if negb (is_file (env_file w)) then
    answer ← input ("File " +:+ env_path w +:+ " not found. Create an empty file? (y/n) ");
    if is_yes answer then
      touch;;
      reconcile
    else
      print msg_env_missing
  else reconcile.

(** ** [Config.__init__] (lines 91-141) and the [Singleton] metaclass *)

Definition user_agent : string :=
  "Mozilla/5.0 (Macintosh; Intel Mac OS X 10_15_4) AppleWebKit/537.36 (KHTML, like Gecko) Chrome/83.0.4103.97 Safari/537.36".

(** [openai.name = v] *)
Definition set_openai (name : string) (v : pyval) : M unit :=
  modify (λ w, with_openai (<[name := v]> (openai w)) w).

(** Lines 107-113. *)
Definition init_azure (self : object) : M object :=
  if py_truthy (default PyNone (self !! "use_azure")) then
    v ← getenv "OPENAI_AZURE_API_BASE" PyNone;
    let self := <["openai_api_base" := v]> self in
    v ← getenv "OPENAI_AZURE_API_VERSION" PyNone;
    let self := <["openai_api_version" := v]> self in
    v ← getenv "OPENAI_AZURE_DEPLOYMENT_ID" PyNone;
    let self := <["openai_deployment_id" := v]> self in
    set_openai "api_type" (PyStr "azure");;
    set_openai "api_base" (default PyNone (self !! "openai_api_base"));;
    set_openai "api_version" (default PyNone (self !! "openai_api_version"));;
    mret self
  else mret self.

Definition Config_init (self : object) : M object :=
  let self := <["debug_mode" := PyBool false]> self in
  let self := <["continuous_mode" := PyBool false]> self in
  let self := <["speak_mode" := PyBool false]> self in
  update_env_from_template;;
  v ← getenv "FAST_LLM_MODEL" (PyStr "gpt-3.5-turbo");
  let self := <["fast_llm_model" := v]> self in
  v ← getenv "SMART_LLM_MODEL" (PyStr "gpt-4");
  let self := <["smart_llm_model" := v]> self in
  v ← getenv "FAST_TOKEN_LIMIT" (PyInt 4000);
  n ← py_int v;
  let self := <["fast_token_limit" := n]> self in
  v ← getenv "SMART_TOKEN_LIMIT" (PyInt 8000);
  n ← py_int v;
  let self := <["smart_token_limit" := n]> self in
  v ← getenv "OPENAI_API_KEY" PyNone;
  let self := <["openai_api_key" := v]> self in
  let self := <["use_azure" := PyBool false]> self in
  v ← getenv "USE_AZURE" PyNone;
  let self := <["use_azure" := py_eq v (PyStr "True")]> self in
  self ← init_azure self;
  v ← getenv "ELEVENLABS_API_KEY" PyNone;
  let self := <["elevenlabs_api_key" := v]> self in
  let self := <["use_mac_os_tts" := PyBool false]> self in
  v ← getenv "USE_MAC_OS_TTS" PyNone;
  let self := <["use_mac_os_tts" := v]> self in
  v ← getenv "GOOGLE_API_KEY" PyNone;
  let self := <["google_api_key" := v]> self in
  v ← getenv "CUSTOM_SEARCH_ENGINE_ID" PyNone;
  let self := <["custom_search_engine_id" := v]> self in
  v ← getenv "PINECONE_API_KEY" PyNone;
  let self := <["pinecone_api_key" := v]> self in
  v ← getenv "PINECONE_ENV" PyNone;
  let self := <["pinecone_region" := v]> self in
  v ← getenv "IMAGE_PROVIDER" PyNone;
  let self := <["image_provider" := v]> self in
  v ← getenv "HUGGINGFACE_API_TOKEN" PyNone;
  let self := <["huggingface_api_token" := v]> self in
  let self := <["user_agent_header" := PyDict [("User-Agent", user_agent)]]> self in
  v ← getenv "REDIS_HOST" (PyStr "localhost");
  let self := <["redis_host" := v]> self in
  v ← getenv "REDIS_PORT" (PyStr "6379");
  let self := <["redis_port" := v]> self in
  v ← getenv "REDIS_PASSWORD" (PyStr "");
  let self := <["redis_password" := v]> self in
  v ← getenv "WIPE_REDIS_ON_START" (PyStr "True");
  let self := <["wipe_redis_on_start" := py_eq v (PyStr "True")]> self in
  v ← getenv "MEMORY_INDEX" (PyStr "auto-gpt");
  let self := <["memory_index" := v]> self in
  v ← getenv "MEMORY_BACKEND" (PyStr "local");
  let self := <["memory_backend" := v]> self in
  set_openai "api_key" (default PyNone (self !! "openai_api_key"));;
  mret self.

(** [Singleton.__call__] (lines 17-23) for [Config()]: the instance is built
    on the first call and kept; when [__init__] raises nothing is kept. *)
Definition Config_call : M object :=
  w ← get_world;
  match instances w with
  | Some self => mret self
  | None =>
      self ← Config_init ∅;
      modify (with_instances (Some self));;
      mret self
  end.

(** Reading an attribute of an instance: [cfg.name]. *)
Definition getattr (self : object) (name : string) : result pyval :=
  match self !! name with
  | Some v => Ok v
  | None => Raise AttributeError
  end.

(** Line 7, [load_dotenv()] at import: the [.env] that [find_dotenv] meets
    first walking up from scripts/ is taken to be the one at [env_path]. *)
Definition import_config : M unit :=
  w ← get_world;
  load_dotenv (env_file w).

(** A process: import the module, then ask for the configuration. *)
Definition main : M object := import_config;; Config_call.

Definition fresh (path : string) (template env : option dict)
    (e : gmap string string) (lines : list string) : world :=
  World path template env e lines [] ∅ None.


(** ** The merge as a function

    What an approved merge does to the mapping, to compare the loops of
    lines 76-86 with. *)

(** The value lines 78-83 write for a default and a typed answer. *)
Definition chosen_value (value new_value : string) : string :=
  if truthy (strip new_value) then new_value else value.

Definition merge_additions (d : dict) (answered : list (string * string * string)) : dict :=
  foldl (λ d (x : string * string * string),
           dict_set d x.1.1 (chosen_value x.1.2 x.2)) d answered.

Definition merge_removals (d : dict) (removed : list string) : dict :=
  foldl dict_unset d removed.

Definition merged (S T : dict) (answers : list string) : dict :=
  merge_removals (merge_additions S (zip (changes S T) answers)) (removed_keys S T).

Definition change_events (path : string) (x : string * string * string) : list event :=
  let '(key, value, new_value) := x in
  [Prompt (key +:+ " (" +:+ value +:+ "): ");
   SetKey key (chosen_value value new_value);
   Print (if truthy (strip new_value)
          then "Updated " +:+ key +:+ " = " +:+ new_value +:+ " in " +:+ path
          else "Kept " +:+ key +:+ " = " +:+ value +:+ " in " +:+ path)].

Definition removal_events (path : string) (key : string) : list event :=
  [UnsetKey key; Print ("Removed " +:+ key +:+ " from " +:+ path)].

Definition report_events (changes : dict) (removed_keys : list string) : list event :=
  [Print "Changes found in .env.template:"]
  ++ (Print ∘ (λ kv : string * string, kv.1 +:+ " = " +:+ kv.2) <$> changes)
  ++ (if bool_decide (removed_keys = []) then []
      else [Print (msg_removed removed_keys)]).

Definition approval_events : list event :=
  [Prompt "Do you want to apply changes to .env? (y/n) ";
   Print msg_warning;
   Print "Enter new values for the following keys or leave empty to keep the current value:"].

(** The events that rewrite the [.env] file. *)
Definition is_write (e : event) : bool :=
  match e with
  | Touch | SetKey _ _ | UnsetKey _ => true
  | Print _ | Prompt _ => false
  end.

Definition writes (t : list event) : list event := filter (λ e, is_write e = true) t.

(** ** Properties of runs

    Vocabulary for the statements below. *)

(** A property of the world that a computation keeps, however it ends. *)
Definition keeps {A} (P : world → Prop) (m : M A) : Prop :=
  ∀ w, P w → P (m w).2.

(** Properties that only read the [.env] file are indifferent to the
    console. *)
Definition file_only (P : world → Prop) : Prop :=
  ∀ w w', env_file w' = env_file w → P w → P w'.

(** The world in which the diff is computed: the template's bindings have
    been offered to the environment (line 53). *)
Definition loaded (w : world) : world :=
  with_environ (foldl setdefault_env (environ w) (dotenv_values (template_file w))) w.

(** The store holds a non-empty value for the key. *)
Definition nonempty_at (d : dict) (k : string) : Prop :=
  ∃ v, dict_get d k = Some v ∧ v ≠ "".

(** The writes of a whole merge, in the order they happen. *)
Definition merge_writes (cs : dict) (vals rs : list string) : list event :=
  ((λ x : string * string * string, SetKey x.1.1 (chosen_value x.1.2 x.2))
     <$> zip cs vals)
  ++ (UnsetKey <$> rs).


(** [int(os.getenv(key, dflt))] as a function of the environment's binding:
    [None] is [ValueError]. *)
Definition env_int (dflt : Z) (o : option string) : option Z :=
  match o with
  | None => Some dflt
  | Some s => int_of_str s
  end.

(** What a completed [__init__] leaves, for the fields the claims are about;
    [w1] is the world in which [os.getenv] is called. *)
Definition initialised (w1 : world) (f s : Z) (self : object) (w' : world) : Prop :=
  self !! "fast_token_limit" = Some (PyInt f) ∧
  self !! "smart_token_limit" = Some (PyInt s) ∧
  self !! "use_azure"
    = Some (PyBool (bool_decide (environ w1 !! "USE_AZURE" = Some "True"))) ∧
  self !! "wipe_redis_on_start"
    = Some (PyBool (bool_decide (environ w1 !! "WIPE_REDIS_ON_START" = Some "True"
                                 ∨ environ w1 !! "WIPE_REDIS_ON_START" = None))) ∧
  self !! "use_mac_os_tts"
    = Some (from_option PyStr PyNone (environ w1 !! "USE_MAC_OS_TTS")) ∧
  (environ w1 !! "USE_AZURE" = Some "True" →
     self !! "openai_api_base"
       = Some (from_option PyStr PyNone (environ w1 !! "OPENAI_AZURE_API_BASE")) ∧
     self !! "openai_api_version"
       = Some (from_option PyStr PyNone (environ w1 !! "OPENAI_AZURE_API_VERSION")) ∧
     self !! "openai_deployment_id"
       = Some (from_option PyStr PyNone (environ w1 !! "OPENAI_AZURE_DEPLOYMENT_ID")) ∧
     openai w' !! "api_type" = Some (PyStr "azure")) ∧
  (environ w1 !! "USE_AZURE" ≠ Some "True" →
     self !! "openai_api_base" = None ∧
     self !! "openai_api_version" = None ∧
     self !! "openai_deployment_id" = None ∧
     openai w' !! "api_type" = openai w1 !! "api_type") ∧
  env_file w' = env_file w1 ∧ environ w' = environ w1 ∧
  trace w' = trace w1 ∧ instances w' = instances w1.

(** The singleton table holds [i]. *)
Definition instances_are (i : option object) (w : world) : Prop :=
  instances w = i.

(** ** The setters (lines 143-193)

    A setter is a method of the configuration object, and every reference
    to that object is a reference to the one instance kept in
    [Singleton._instances]; so [self.name = value] updates that entry, and
    the next [Config()] returns the updated instance.  The annotations
    ([bool], [str], [int]) are not enforced: any value is stored. *)

(** [self.name = value] on the kept instance *)
Definition set_attr (name : string) (value : pyval) : M unit :=
  modify (λ w, with_instances (<[name := value]> <$> instances w) w).

Definition set_continuous_mode (value : pyval) : M unit :=
  set_attr "continuous_mode" value.
Definition set_speak_mode (value : pyval) : M unit :=
  set_attr "speak_mode" value.
Definition set_fast_llm_model (value : pyval) : M unit :=
  set_attr "fast_llm_model" value.
Definition set_smart_llm_model (value : pyval) : M unit :=
  set_attr "smart_llm_model" value.
Definition set_fast_token_limit (value : pyval) : M unit :=
  set_attr "fast_token_limit" value.
Definition set_smart_token_limit (value : pyval) : M unit :=
  set_attr "smart_token_limit" value.
Definition set_openai_api_key (value : pyval) : M unit :=
  set_attr "openai_api_key" value.
Definition set_elevenlabs_api_key (value : pyval) : M unit :=
  set_attr "elevenlabs_api_key" value.
Definition set_google_api_key (value : pyval) : M unit :=
  set_attr "google_api_key" value.
Definition set_custom_search_engine_id (value : pyval) : M unit :=
  set_attr "custom_search_engine_id" value.
Definition set_pinecone_api_key (value : pyval) : M unit :=
  set_attr "pinecone_api_key" value.
Definition set_pinecone_region (value : pyval) : M unit :=
  set_attr "pinecone_region" value.
Definition set_debug_mode (value : pyval) : M unit :=
  set_attr "debug_mode" value.

(** The setters of the class, each with the attribute it assigns. *)
Definition setters : list (string * (pyval → M unit)) :=
  [("continuous_mode", set_continuous_mode);
   ("speak_mode", set_speak_mode);
   ("fast_llm_model", set_fast_llm_model);
   ("smart_llm_model", set_smart_llm_model);
   ("fast_token_limit", set_fast_token_limit);
   ("smart_token_limit", set_smart_token_limit);
   ("openai_api_key", set_openai_api_key);
   ("elevenlabs_api_key", set_elevenlabs_api_key);
   ("google_api_key", set_google_api_key);
   ("custom_search_engine_id", set_custom_search_engine_id);
   ("pinecone_api_key", set_pinecone_api_key);
   ("pinecone_region", set_pinecone_region);
   ("debug_mode", set_debug_mode)].

(** ** Tables read off [__init__]

    The attributes that are [os.getenv(key, default)] as it stands, with
    their key and default (lines 99-139); [PyNone] is the default of
    [os.getenv(key)]. *)
Definition string_fields : list (string * string * pyval) :=
  [("fast_llm_model", "FAST_LLM_MODEL", PyStr "gpt-3.5-turbo");
   ("smart_llm_model", "SMART_LLM_MODEL", PyStr "gpt-4");
   ("openai_api_key", "OPENAI_API_KEY", PyNone);
   ("elevenlabs_api_key", "ELEVENLABS_API_KEY", PyNone);
   ("use_mac_os_tts", "USE_MAC_OS_TTS", PyNone);
   ("google_api_key", "GOOGLE_API_KEY", PyNone);
   ("custom_search_engine_id", "CUSTOM_SEARCH_ENGINE_ID", PyNone);
   ("pinecone_api_key", "PINECONE_API_KEY", PyNone);
   ("pinecone_region", "PINECONE_ENV", PyNone);
   ("image_provider", "IMAGE_PROVIDER", PyNone);
   ("huggingface_api_token", "HUGGINGFACE_API_TOKEN", PyNone);
   ("redis_host", "REDIS_HOST", PyStr "localhost");
   ("redis_port", "REDIS_PORT", PyStr "6379");
   ("redis_password", "REDIS_PASSWORD", PyStr "");
   ("memory_index", "MEMORY_INDEX", PyStr "auto-gpt");
   ("memory_backend", "MEMORY_BACKEND", PyStr "local")].

(** The attributes assigned a constant (lines 93-95 and 131). *)
Definition constant_fields : list (string * pyval) :=
  [("debug_mode", PyBool false);
   ("continuous_mode", PyBool false);
   ("speak_mode", PyBool false);
   ("user_agent_header", PyDict [("User-Agent", user_agent)])].

(** The provider attributes of lines 108-110, with their keys. *)
Definition azure_fields : list (string * string) :=
  [("openai_api_base", "OPENAI_AZURE_API_BASE");
   ("openai_api_version", "OPENAI_AZURE_API_VERSION");
   ("openai_deployment_id", "OPENAI_AZURE_DEPLOYMENT_ID")].

(** ** More vocabulary *)

(** A computation that raises [EOFError] only at a question left without an
    answer: the input is read to its end and the question is the last thing
    on the console. *)
Definition eof_at_prompt {A} (m : M A) : Prop :=
  ∀ w w', m w = (Raise EOFError, w') →
    stdin w' = [] ∧ ∃ t p, trace w' = t ++ [Prompt p].


(** The environment is [e]. *)
Definition environ_is (e : gmap string string) (w : world) : Prop :=
  environ w = e.

(** [e.get(k)] if the environment has [k], else what the mapping [d] has. *)
Definition env_or (e : gmap string string) (d : dict) (k : string) : option string :=
  match e !! k with
  | Some v => Some v
  | None => dict_get d k
  end.

(** The questions asked on the console. *)
Definition is_prompt (e : event) : bool :=
  match e with
  | Prompt _ => true
  | _ => false
  end.

Definition prompts (t : list event) : list event :=
  filter (λ e, is_prompt e = true) t.

(** A computation that asks at most [n] questions and reads at most [n]
    lines of input, however it ends. *)
Definition reads_le {A} (n : nat) (m : M A) : Prop :=
  ∀ w, (length (stdin w) ≤ length (stdin (m w).2) + n)%nat ∧
       (length (prompts (trace (m w).2)) ≤ length (prompts (trace w)) + n)%nat.

(** The bindings written to a store created from the template: the
    template's non-empty defaults in the template's order, each with the
    value chosen by the answer. *)
Definition created_store (T : dict) (answers : list string) : dict :=
  (λ x : string * string * string, (x.1.1, chosen_value x.1.2 x.2))
    <$> zip (filter (λ kv : string * string, kv.2 ≠ "") T) answers.

(** The world once the missing store has been created on request
    (lines 46-48). *)
Definition store_created (w : world) (rest : list string) : world :=
  emit Touch
    (with_env_file (Some [])
       (with_stdin rest
          (emit (Prompt ("File " +:+ env_path w
                         +:+ " not found. Create an empty file? (y/n) ")) w))).

(** An instance given by the list of its assignments, latest first. *)
Definition attrs_object (l : list (string * pyval)) : object :=
  foldr (λ kv m, <[kv.1 := kv.2]> m) ∅ l.

(** The latest assignment to an attribute. *)
Fixpoint attrs_get (l : list (string * pyval)) (k : string) : option pyval :=
  match l with
  | [] => None
  | (k', v) :: l' => if String.eqb k' k then Some v else attrs_get l' k
  end.


(** What a completed [__init__] leaves in the attributes of the tables and
    in the [openai] module; [w1] is the world in which [os.getenv] is
    called. *)
Definition populated (w1 : world) (self : object) (w' : world) : Prop :=
  (∀ attr key dflt, (attr, key, dflt) ∈ string_fields →
     self !! attr = Some (from_option PyStr dflt (environ w1 !! key))) ∧
  (∀ attr v, (attr, v) ∈ constant_fields → self !! attr = Some v) ∧
  openai w' !! "api_key"
    = Some (from_option PyStr PyNone (environ w1 !! "OPENAI_API_KEY")) ∧
  (environ w1 !! "USE_AZURE" = Some "True" →
     openai w' !! "api_type" = Some (PyStr "azure") ∧
     openai w' !! "api_base"
       = Some (from_option PyStr PyNone (environ w1 !! "OPENAI_AZURE_API_BASE")) ∧
     openai w' !! "api_version"
       = Some (from_option PyStr PyNone (environ w1 !! "OPENAI_AZURE_API_VERSION"))) ∧
  (environ w1 !! "USE_AZURE" ≠ Some "True" →
     ∀ name, name ≠ "api_key" → openai w' !! name = openai w1 !! name).

(** ** Reading back what was written

    [set_key(..., quote_mode="never")] writes the line [key=value] with the
    value as it stands; the mapping of the file keeps that string.  What a
    later [dotenv_values] makes of the line is another matter: blanks after
    the [=] and at the end are dropped, and a value between quotes loses
    them.  The functions below give that reading for the lines it is
    determined for by the line alone; [None] stands for the remaining ones
    (a [$], which may start an interpolation, a line break, a [#] outside
    quotes, a backslash or an unclosed quote, text after a closing quote). *)

Fixpoint has_char (c : ascii) (s : string) : bool :=
  match s with
  | EmptyString => false
  | String c' s' => bool_decide (c' = c) || has_char c s'
  end.

(** The text up to the closing quote [q], and the text after it. *)
Fixpoint split_at_quote (q : ascii) (s : string) : option (string * string) :=
  match s with
  | EmptyString => None
  | String c s' =>
      if bool_decide (c = q) then Some (EmptyString, s')
      else if bool_decide (c = ascii_of_nat 92) then None
      else
        match split_at_quote q s' with
        | Some (content, rest) => Some (String c content, rest)
        | None => None
        end
  end.

(** Modelled from the spec: the value [dotenv_values] reads from the line
    [key=value] (section 6, the format of the file: a value that needs no
    quoting reads back as written, [read_back_plain] below; a blank value
    and a quoted one read as python-dotenv reads them).  34 is the double
    quote, 92 the backslash, 10 and 13 the line breaks. *)
Definition read_back (value : string) : option string :=
  if has_char "$"%char value || has_char (ascii_of_nat 10) value
     || has_char (ascii_of_nat 13) value
  then None
  else
    match lstrip value with
    | EmptyString => Some EmptyString
    | String c s' =>
        if bool_decide (c = "'"%char) || bool_decide (c = ascii_of_nat 34) then
          match split_at_quote c s' with
          | Some (content, rest) => if all_space rest then Some content else None
          | None => None
          end
        else if has_char "#"%char (String c s') then None
        else Some (rstrip (String c s'))
    end.

(** A character that needs no quoting: a printable ASCII character other
    than the blank, the two quotes, [#], [$] and the backslash. *)
Definition plain_char (c : ascii) : bool :=
  ((33 <=? code c) && (code c <=? 126))%nat
  && negb (bool_decide (c = "'"%char))
  && negb (bool_decide (c = ascii_of_nat 34))
  && negb (bool_decide (c = "#"%char)) && negb (bool_decide (c = "$"%char))
  && negb (bool_decide (c = ascii_of_nat 92)).

Fixpoint plain_chars (s : string) : bool :=
  match s with
  | EmptyString => true
  | String c s' => plain_char c && plain_chars s'
  end.

(** A value that needs no quoting (section 6): not empty, and made of such
    characters. *)
Definition plain (value : string) : bool := truthy value && plain_chars value.

(** The mapping a later [dotenv_values] reads, after the writes of a run, in
    terms of the mapping read before them; [None] when a written line is one
    of those [read_back] leaves out. *)
Definition replay_read (d : option dict) (e : event) : option dict :=
  match e with
  | SetKey k v =>
      match d, read_back v with
      | Some d', Some v' => Some (dict_set d' k v')
      | _, _ => None
      end
  | UnsetKey k => (λ d', dict_unset d' k) <$> d
  | Touch | Print _ | Prompt _ => d
  end.

Definition store_as_read (S : dict) (t : list event) : option dict :=
  foldl replay_read (Some S) t.

(** * Facts *)

(** ** Strings *)

Lemma rstrip_all_space s : all_space s = true → rstrip s = "".
Proof.
  induction s as [|c s IH]; simpl; [done|].
  intros [Hc Hs]%andb_prop. by rewrite IH, Hc.
Qed.

Lemma rstrip_empty s : rstrip s = "" → all_space s = true.
Proof.
  induction s as [|c s IH]; simpl; [done|].
  destruct (rstrip s) eqn:E; [|done].
  destruct (is_space c); [|done]. intros _. by rewrite IH.
Qed.

Lemma lstrip_all_space s : all_space (lstrip s) = all_space s.
Proof.
  induction s as [|c s IH]; simpl; [done|].
  destruct (is_space c) eqn:E; simpl; [done|]. by rewrite E.
Qed.

Lemma strip_empty_iff s : strip s = "" ↔ all_space s = true.
Proof.
  unfold strip. split.
  - intros H%rstrip_empty. by rewrite lstrip_all_space in H.
  - intros H. apply rstrip_all_space. by rewrite lstrip_all_space.
Qed.

Lemma truthy_strip s : truthy (strip s) = negb (all_space s).
Proof.
  unfold truthy. case_bool_decide as H.
  - apply strip_empty_iff in H. by rewrite H.
  - destruct (all_space s) eqn:E; [|done].
    apply strip_empty_iff in E. done.
Qed.

Lemma chosen_value_spec value a :
  chosen_value value a = if all_space a then value else a.
Proof. unfold chosen_value. rewrite truthy_strip. by destruct (all_space a). Qed.

Lemma chosen_value_nonempty value a : value ≠ "" → chosen_value value a ≠ "".
Proof.
  rewrite chosen_value_spec. destruct (all_space a) eqn:E; [done|].
  intros _ ->. done.
Qed.

Lemma lower_char_y c : lower_char c = "y"%char → c = "y"%char ∨ c = "Y"%char.
Proof.
  destruct c as [[] [] [] [] [] [] [] []]; vm_compute; intros H;
    first [discriminate H | by left | by right].
Qed.

(** X1. [answer.lower() == "y"] holds of the answers "y" and "Y" and of no
    other: "yes", " y" or an empty line decline. *)
Lemma is_yes_iff a : is_yes a = true ↔ a = "y" ∨ a = "Y".
Proof.
  unfold is_yes. rewrite bool_decide_eq_true. split.
  - destruct a as [|c [|c' a]]; simpl; try done.
    intros [= H]. destruct (lower_char_y c H) as [-> | ->]; auto.
  - by intros [-> | ->].
Qed.

(** ** Dictionaries *)

Lemma dict_get_None d k : dict_get d k = None ↔ k ∉ keys d.
Proof.
  induction d as [|[k' v] d IH]; simpl.
  - split; [intros _; apply not_elem_of_nil | done].
  - rewrite not_elem_of_cons. case_bool_decide as Hk.
    + split; [done | intros [Hne _]; by destruct Hne].
    + rewrite IH. split; [by intros; split; [intros ->|] | by intros [_ ?]].
Qed.

Lemma dict_get_Some_elem d k v : dict_get d k = Some v → (k, v) ∈ d.
Proof.
  induction d as [|[k' v'] d IH]; simpl; [done|].
  case_bool_decide; [intros [= ->]; subst; apply list_elem_of_here|].
  intros H'. apply list_elem_of_further. auto.
Qed.

Lemma dict_get_is_Some d k : is_Some (dict_get d k) ↔ k ∈ keys d.
Proof.
  rewrite <-not_eq_None_Some, dict_get_None.
  split; [apply dec_stable | auto].
Qed.

Lemma elem_dict_get d k v : wf_dict d → (k, v) ∈ d → dict_get d k = Some v.
Proof.
  unfold wf_dict, keys. induction d as [|[k' v'] d IH]; simpl.
  - intros _ H. by apply elem_of_nil in H.
  - intros [Hk' Hd]%NoDup_cons [[= -> ->] | H]%elem_of_cons.
    + by rewrite bool_decide_eq_true_2.
    + rewrite bool_decide_eq_false_2; [auto|].
      intros ->. apply Hk'. apply list_elem_of_fmap. by exists (k, v).
Qed.

Lemma elem_keys (d : dict) k : k ∈ keys d ↔ ∃ v, (k, v) ∈ d.
Proof.
  unfold keys. rewrite list_elem_of_fmap. split.
  - intros [[k' v] [-> H]]. by exists v.
  - intros [v H]. by exists (k, v).
Qed.

Lemma dict_get_set_eq d k v : dict_get (dict_set d k v) k = Some v.
Proof.
  unfold dict_set, dict_mem. case_bool_decide as Hin.
  - induction d as [|[k' v'] d IH]; [by apply elem_of_nil in Hin|].
    simpl in *. case_bool_decide; simpl; [by rewrite bool_decide_eq_true_2|].
    rewrite bool_decide_eq_false_2 by done.
    apply IH. apply elem_of_cons in Hin as [|]; [congruence | done].
  - induction d as [|[k' v'] d IH]; simpl; [by rewrite bool_decide_eq_true_2|].
    apply not_elem_of_cons in Hin as [Hne Hin]. simpl in Hne.
    rewrite bool_decide_eq_false_2 by done. auto.
Qed.

Lemma dict_get_set_ne d k k' v : k ≠ k' → dict_get (dict_set d k' v) k = dict_get d k.
Proof.
  intros Hne. unfold dict_set. destruct (dict_mem k' d).
  - induction d as [|[k0 v0] d IH]; simpl; [done|].
    case_bool_decide; simpl.
    + subst. by rewrite !bool_decide_eq_false_2 by done.
    + case_bool_decide; [done | apply IH].
  - induction d as [|[k0 v0] d IH]; simpl.
    + by rewrite bool_decide_eq_false_2 by done.
    + by case_bool_decide.
Qed.

Lemma dict_get_unset_ne d k k' : k ≠ k' → dict_get (dict_unset d k') k = dict_get d k.
Proof.
  intros Hne. unfold dict_unset.
  induction d as [|[k0 v0] d IH]; [done|].
  rewrite filter_cons. simpl. case_decide; simpl.
  - case_bool_decide; [done | apply IH].
  - subst. rewrite bool_decide_eq_false_2 by done. apply IH.
Qed.

Lemma keys_dict_set d k v k0 : k0 ∈ keys (dict_set d k v) ↔ k0 ∈ keys d ∨ k0 = k.
Proof.
  rewrite <-!dict_get_is_Some. destruct (decide (k0 = k)) as [->|Hne].
  - rewrite dict_get_set_eq. split; [by right | by eauto].
  - rewrite dict_get_set_ne by done. split; [by left | by intros [|]].
Qed.

Lemma keys_dict_unset d k k0 : k0 ∈ keys (dict_unset d k) ↔ k0 ∈ keys d ∧ k0 ≠ k.
Proof.
  unfold dict_unset. rewrite !elem_keys. split.
  - intros [v [H1 H2]%list_elem_of_filter]. eauto.
  - intros [[v H] Hne]. exists v. by apply list_elem_of_filter.
Qed.

(** ** The diff *)

Lemma get_default_empty (d : dict) k :
  default "" (dict_get d k) = "" ↔ dict_get d k = None ∨ dict_get d k = Some "".
Proof.
  destruct (dict_get d k) as [v|]; simpl.
  - split; [intros ->; by right | by intros [|[= ->]]].
  - split; [by left | done].
Qed.

Lemma elem_changes S T k v :
  (k, v) ∈ changes S T ↔
  (k, v) ∈ T ∧ v ≠ "" ∧ (dict_get S k = None ∨ dict_get S k = Some "").
Proof.
  unfold changes. rewrite list_elem_of_filter. simpl.
  rewrite get_default_empty. tauto.
Qed.

Lemma elem_removed_keys S T k :
  k ∈ removed_keys S T ↔ k ∈ keys S ∧ k ∉ keys T.
Proof. unfold removed_keys. rewrite list_elem_of_filter. tauto. Qed.

Lemma changes_sublist S T : changes S T `sublist_of` T.
Proof. apply sublist_filter. Qed.

Lemma wf_changes S T : wf_dict T → wf_dict (changes S T).
Proof.
  unfold wf_dict, keys. intros H.
  eapply sublist_NoDup; [exact H | apply fmap_sublist, changes_sublist].
Qed.

(** C1. The diff is exactly the one of section 3: the additions are the
    template's bindings with a non-empty default whose key the store lacks or
    holds empty, each with the template's default; the removals are the
    store's keys the template does not mention; a key whose default is empty
    is never an addition, present in the store or not. *)
Theorem diff_exact (S T : dict) :
  wf_dict T →
  (∀ k v, (k, v) ∈ changes S T ↔
          dict_get T k = Some v ∧ v ≠ "" ∧
          (dict_get S k = None ∨ dict_get S k = Some "")) ∧
  (∀ k, k ∈ keys (changes S T) ↔
        ∃ v, dict_get T k = Some v ∧ v ≠ "" ∧
             (dict_get S k = None ∨ dict_get S k = Some "")) ∧
  (∀ k, k ∈ removed_keys S T ↔ k ∈ keys S ∧ k ∉ keys T) ∧
  (∀ k, dict_get T k = Some "" → k ∉ keys (changes S T)).
Proof.
  intros HT.
  assert (Hpair : ∀ k v, (k, v) ∈ changes S T ↔
            dict_get T k = Some v ∧ v ≠ "" ∧
            (dict_get S k = None ∨ dict_get S k = Some "")).
  { intros k v. rewrite elem_changes. split.
    - intros (Hin & Hv & HS). by rewrite (elem_dict_get T k v).
    - intros (Hget & Hv & HS). eauto using dict_get_Some_elem. }
  split; [exact Hpair|]. split; [|split].
  - intros k. rewrite elem_keys. by setoid_rewrite Hpair.
  - apply elem_removed_keys.
  - intros k Hk [v Hin]%elem_keys. apply Hpair in Hin as (Hget & Hv & _).
    congruence.
Qed.

(** Closes [wf_dict] on a literal dictionary. *)
Ltac solve_wf :=
  unfold wf_dict, keys; simpl;
  repeat (apply NoDup_cons_2;
          [let H := fresh in
           intros H;
           repeat (apply elem_of_cons in H as [H|H]; [discriminate H|]);
           by apply elem_of_nil in H|]);
  apply NoDup_nil_2.

Lemma diff_exact_witness :
  wf_dict [("A", "1"); ("C", ""); ("D", "2")] ∧
  changes [("A", ""); ("B", "x")] [("A", "1"); ("C", ""); ("D", "2")]
    = [("A", "1"); ("D", "2")] ∧
  removed_keys [("A", ""); ("B", "x")] [("A", "1"); ("C", ""); ("D", "2")] = ["B"] ∧
  "C" ∉ keys (changes [("A", ""); ("B", "x")] [("A", "1"); ("C", ""); ("D", "2")]).
Proof.
  assert (Hwf : wf_dict [("A", "1"); ("C", ""); ("D", "2")])
    by solve_wf.
  split; [exact Hwf|]. split; [reflexivity|]. split; [reflexivity|].
  apply (diff_exact [("A", ""); ("B", "x")] _ Hwf). reflexivity.
Defined.

(** ** Running the monad *)

Lemma bind_ret {A B} (a : A) (f : A → M B) w : (mret a ≫= f) w = f a w.
Proof. reflexivity. Qed.

Lemma bind_get_world {A} (f : world → M A) w : (get_world ≫= f) w = f w w.
Proof. reflexivity. Qed.

Lemma bind_modify {A} (g : world → world) (f : () → M A) w :
  (modify g ≫= f) w = f tt (g w).
Proof. reflexivity. Qed.

Lemma bind_print {A} line (f : () → M A) w :
  (print line ≫= f) w = f tt (emit (Print line) w).
Proof. reflexivity. Qed.

Lemma bind_assoc {A B C} (m : M A) (f : A → M B) (g : B → M C) w :
  ((m ≫= f) ≫= g) w = (m ≫= (λ a, f a ≫= g)) w.
Proof. unfold mbind, M_bind. by destruct (m w) as [[a|e] w']. Qed.

Lemma bind_input_cons {A} prompt (f : string → M A) w line rest :
  stdin w = line :: rest →
  (input prompt ≫= f) w = f line (with_stdin rest (emit (Prompt prompt) w)).
Proof. intros H. unfold mbind, M_bind, input. by rewrite H. Qed.

Lemma bind_input_nil {A} prompt (f : string → M A) w :
  stdin w = [] →
  (input prompt ≫= f) w = (Raise EOFError, emit (Prompt prompt) w).
Proof. intros H. unfold mbind, M_bind, input. by rewrite H. Qed.

Lemma bind_run {A B} (m : M A) (f : A → M B) w a w' :
  m w = (Ok a, w') → (m ≫= f) w = f a w'.
Proof. intros H. unfold mbind, M_bind. by rewrite H. Qed.

Lemma bind_raise {A B} (m : M A) (f : A → M B) w e w' :
  m w = (Raise e, w') → (m ≫= f) w = (Raise e, w').
Proof. intros H. unfold mbind, M_bind. by rewrite H. Qed.

Lemma keeps_bind {A B} P (m : M A) (f : A → M B) :
  keeps P m → (∀ a, keeps P (f a)) → keeps P (m ≫= f).
Proof.
  intros Hm Hf w Hw. specialize (Hm w Hw).
  unfold mbind, M_bind. destruct (m w) as [[a|e] w']; simpl in *; [|done].
  by apply Hf.
Qed.

Lemma keeps_ret {A} P (a : A) : keeps P (mret a).
Proof. by intros w. Qed.

Lemma keeps_modify P g : (∀ w, P w → P (g w)) → keeps P (modify g).
Proof. intros H w. apply H. Qed.

Lemma keeps_get_world {A} P (f : world → M A) :
  (∀ w0, keeps P (f w0)) → keeps P (get_world ≫= f).
Proof. intros H w Hw. rewrite bind_get_world. by apply H. Qed.

Lemma keeps_for_each {A} P (l : list A) (body : A → M unit) :
  (∀ x, x ∈ l → keeps P (body x)) → keeps P (for_each l body).
Proof.
  induction l as [|x l IH]; intros Hbody; simpl; [apply keeps_ret|].
  apply keeps_bind.
  - apply Hbody, list_elem_of_here.
  - intros _. apply IH. intros y Hy. by apply Hbody, list_elem_of_further.
Qed.

Lemma keeps_print P line : file_only P → keeps P (print line).
Proof. intros HP. apply keeps_modify. intros w. by apply HP. Qed.

Lemma keeps_input P prompt : file_only P → keeps P (input prompt).
Proof.
  intros HP w Hw. unfold input.
  destruct (stdin w); simpl; by eapply HP; [|exact Hw].
Qed.

(** ** The loops of the merge *)

Lemma run_apply_change key value w line rest :
  stdin w = line :: rest →
  apply_change (key, value) w =
  (Ok tt,
   World (env_path w) (template_file w)
     (Some (dict_set (dotenv_values (env_file w)) key (chosen_value value line)))
     (environ w) rest
     (trace w ++ change_events (env_path w) (key, value, line))
     (openai w) (instances w)).
Proof.
  intros Hin. unfold apply_change.
  rewrite (bind_input_cons _ _ _ _ _ Hin), bind_get_world.
  unfold change_events, chosen_value.
  destruct (truthy (strip line)); unfold set_key, print;
    rewrite bind_modify; unfold modify, emit, with_env_file, with_stdin; simpl;
    by rewrite <-!app_assoc.
Qed.

Lemma run_apply_change_eof key value w :
  stdin w = [] →
  apply_change (key, value) w =
  (Raise EOFError, emit (Prompt (key +:+ " (" +:+ value +:+ "): ")) w).
Proof. intros Hin. unfold apply_change. by rewrite bind_input_nil. Qed.

Lemma run_apply_removal key w :
  apply_removal key w =
  (Ok tt,
   World (env_path w) (template_file w)
     ((λ d, dict_unset d key) <$> env_file w)
     (environ w) (stdin w)
     (trace w ++ removal_events (env_path w) key)
     (openai w) (instances w)).
Proof.
  unfold apply_removal. rewrite bind_get_world. unfold unset_key, print.
  rewrite bind_modify. unfold modify, emit, with_env_file; simpl.
  by rewrite <-!app_assoc.
Qed.

Lemma run_changes cs : ∀ vals rest w S,
  env_file w = Some S → length vals = length cs → stdin w = vals ++ rest →
  for_each cs apply_change w =
  (Ok tt,
   World (env_path w) (template_file w)
     (Some (merge_additions S (zip cs vals)))
     (environ w) rest
     (trace w ++ concat (change_events (env_path w) <$> zip cs vals))
     (openai w) (instances w)).
Proof.
  induction cs as [|[k v] cs IH]; intros vals rest w S HS Hlen Hin.
  - destruct vals; [|done]. destruct w; simpl in *; subst.
    by rewrite app_nil_r.
  - destruct vals as [|a vals]; [done|]. simpl in Hlen, Hin.
    cbn [for_each]. erewrite bind_run; [|by apply run_apply_change].
    erewrite IH; [|reflexivity|by simplify_eq/=|reflexivity].
    simpl. rewrite HS. simpl. by rewrite <-!app_assoc.
Qed.

Lemma run_changes_short cs : ∀ vals w S,
  env_file w = Some S → (length vals < length cs)%nat → stdin w = vals →
  ∃ w', for_each cs apply_change w = (Raise EOFError, w') ∧
        env_file w' = Some (merge_additions S (zip cs vals)) ∧
        writes (trace w') =
          writes (trace w) ++
          ((λ x : string * string * string, SetKey x.1.1 (chosen_value x.1.2 x.2))
             <$> zip cs vals).
Proof.
  induction cs as [|[k v] cs IH]; intros vals w S HS Hlen Hin; simpl in Hlen; [lia|].
  destruct vals as [|a vals].
  - eexists. cbn [for_each]. erewrite bind_raise; [|by apply run_apply_change_eof].
    split; [reflexivity|]. simpl. split; [done|].
    unfold writes. rewrite filter_app. simpl. by rewrite filter_cons_False by done.
  - cbn [for_each]. erewrite bind_run; [|by apply run_apply_change].
    match goal with
    | |- context [for_each cs apply_change ?w1] =>
        destruct (IH vals w1 (dict_set S k (chosen_value v a)))
          as (w' & Hrun & Hfile & Htr)
    end.
    { simpl. by rewrite HS. }
    { simpl in Hlen. lia. }
    { reflexivity. }
    exists w'. split; [exact Hrun|]. split.
    + by rewrite Hfile.
    + rewrite Htr. simpl. unfold writes. rewrite !filter_app. simpl.
      rewrite filter_cons_False by done. rewrite filter_cons_True by done.
      rewrite filter_cons_False by done. rewrite filter_nil.
      by rewrite <-app_assoc.
Qed.

Lemma run_removals rs : ∀ w S,
  env_file w = Some S →
  for_each rs apply_removal w =
  (Ok tt,
   World (env_path w) (template_file w)
     (Some (merge_removals S rs))
     (environ w) (stdin w)
     (trace w ++ concat (removal_events (env_path w) <$> rs))
     (openai w) (instances w)).
Proof.
  induction rs as [|k rs IH]; intros w S HS.
  - destruct w; simpl in *; subst. by rewrite app_nil_r.
  - cbn [for_each]. erewrite bind_run; [|by apply run_apply_removal].
    erewrite IH; [|simpl; by rewrite HS].
    simpl. by rewrite <-!app_assoc.
Qed.

Lemma run_print_loop {A} (g : A → string) (l : list A) : ∀ w,
  for_each l (λ x, print (g x)) w =
  (Ok tt,
   World (env_path w) (template_file w) (env_file w) (environ w) (stdin w)
     (trace w ++ (Print ∘ g <$> l)) (openai w) (instances w)).
Proof.
  induction l as [|x l IH]; intros w.
  - destruct w; simpl. by rewrite app_nil_r.
  - cbn [for_each]. rewrite bind_print, IH. simpl. by rewrite <-!app_assoc.
Qed.

(** ** The runs of [reconcile] *)

Lemma run_report cs rs w :
  report cs rs w =
  (Ok tt,
   World (env_path w) (template_file w) (env_file w) (environ w) (stdin w)
     (trace w ++ report_events cs rs) (openai w) (instances w)).
Proof.
  unfold report, report_events. rewrite bind_print.
  assert (Hloop : ∀ w0,
    (if negb (bool_decide (cs = []))
     then for_each cs (λ kv, print (kv.1 +:+ " = " +:+ kv.2)) else mret tt) w0 =
    (Ok tt,
     World (env_path w0) (template_file w0) (env_file w0) (environ w0) (stdin w0)
       (trace w0 ++ (Print ∘ (λ kv : string * string, kv.1 +:+ " = " +:+ kv.2) <$> cs))
       (openai w0) (instances w0))).
  { intros w0. case_bool_decide as Hcs; simpl.
    - subst cs. destruct w0; simpl. by rewrite app_nil_r.
    - apply run_print_loop. }
  erewrite bind_run; [|apply Hloop]. clear Hloop.
  destruct (bool_decide (rs = [])); simpl.
  - unfold mret, M_ret. by rewrite app_nil_r, <-!app_assoc.
  - unfold print, modify, emit; simpl. by rewrite <-!app_assoc.
Qed.

Lemma run_ask_declined cs rs w a rest :
  stdin w = a :: rest → is_yes a = false →
  ask_and_apply cs rs w =
  (Ok tt,
   World (env_path w) (template_file w) (env_file w) (environ w) rest
     (trace w ++ [Prompt "Do you want to apply changes to .env? (y/n) ";
                  Print "No changes in .env.template"])
     (openai w) (instances w)).
Proof.
  intros Hin Hno. unfold ask_and_apply.
  rewrite (bind_input_cons _ _ _ _ _ Hin), Hno.
  unfold print, modify, emit, with_stdin; simpl. by rewrite <-!app_assoc.
Qed.

Lemma run_ask_eof cs rs w :
  stdin w = [] →
  ask_and_apply cs rs w =
  (Raise EOFError, emit (Prompt "Do you want to apply changes to .env? (y/n) ") w).
Proof. intros Hin. unfold ask_and_apply. by rewrite bind_input_nil. Qed.

Lemma run_ask_approved cs rs w S a vals rest :
  env_file w = Some S →
  stdin w = a :: vals ++ rest → is_yes a = true → length vals = length cs →
  ask_and_apply cs rs w =
  (Ok tt,
   World (env_path w) (template_file w)
     (Some (merge_removals (merge_additions S (zip cs vals)) rs))
     (environ w) rest
     (trace w ++ approval_events
        ++ concat (change_events (env_path w) <$> zip cs vals)
        ++ concat (removal_events (env_path w) <$> rs))
     (openai w) (instances w)).
Proof.
  intros HS Hin Hyes Hlen. unfold ask_and_apply.
  rewrite (bind_input_cons _ _ _ _ _ Hin), Hyes.
  rewrite !bind_print.
  erewrite bind_run; [|by eapply (run_changes cs vals rest)].
  erewrite run_removals; [|reflexivity].
  simpl. by rewrite <-!app_assoc.
Qed.

Lemma run_ask_approved_short cs rs w S a vals :
  env_file w = Some S →
  stdin w = a :: vals → is_yes a = true → (length vals < length cs)%nat →
  ∃ w', ask_and_apply cs rs w = (Raise EOFError, w') ∧
        env_file w' = Some (merge_additions S (zip cs vals)) ∧
        writes (trace w') =
          writes (trace w) ++
          ((λ x : string * string * string, SetKey x.1.1 (chosen_value x.1.2 x.2))
             <$> zip cs vals).
Proof.
  intros HS Hin Hyes Hlen. unfold ask_and_apply.
  rewrite (bind_input_cons _ _ _ _ _ Hin), Hyes.
  rewrite !bind_print.
  match goal with
  | |- context [(for_each cs apply_change ≫= _) ?w1] =>
      destruct (run_changes_short cs vals w1 S) as (w' & Hrun & Hfile & Htr);
        [by simpl | done | reflexivity |]
  end.
  exists w'. split; [by erewrite bind_raise|]. split; [done|].
  rewrite Htr. simpl. unfold writes. rewrite !filter_app. simpl.
  rewrite !filter_cons_False by done. rewrite filter_nil.
  by rewrite !app_nil_r.
Qed.

Lemma reconcile_unfold w :
  let S := dotenv_values (env_file w) in
  let T := dotenv_values (template_file w) in
  reconcile w =
  if bool_decide (changes S T = []) && bool_decide (removed_keys S T = [])
  then (Ok tt, loaded w)
  else (report (changes S T) (removed_keys S T);;
        ask_and_apply (changes S T) (removed_keys S T)) (loaded w).
Proof.
  simpl. unfold reconcile. rewrite bind_get_world. unfold load_dotenv.
  rewrite bind_modify, bind_get_world. fold (loaded w). simpl.
  by do 2 case_bool_decide.
Qed.

(** ** The merged mapping *)

Lemma filter_empty {A} (P : A → Prop) `{!∀ x, Decision (P x)} (l : list A) :
  (∀ x, x ∈ l → ¬ P x) → filter P l = [].
Proof.
  intros Hall. destruct (filter P l) as [|x l'] eqn:E; [done|].
  assert (Hx : x ∈ filter P l) by (rewrite E; apply list_elem_of_here).
  apply list_elem_of_filter in Hx as [HP Hin]. by destruct (Hall x Hin).
Qed.

Lemma get_merge_additions_other xs : ∀ d k,
  k ∉ ((λ x : string * string * string, x.1.1) <$> xs) →
  dict_get (merge_additions d xs) k = dict_get d k.
Proof.
  induction xs as [|[[k' v'] a'] xs IH]; intros d k Hk; [done|].
  simpl in *. apply not_elem_of_cons in Hk as [Hne Hk].
  unfold merge_additions in *. rewrite IH by done. simpl.
  by apply dict_get_set_ne.
Qed.

Lemma nonempty_merge_additions xs : ∀ d k,
  (∀ x, x ∈ xs → x.1.2 ≠ "") →
  nonempty_at d k ∨ k ∈ ((λ x : string * string * string, x.1.1) <$> xs) →
  nonempty_at (merge_additions d xs) k.
Proof.
  induction xs as [|[[k' v'] a'] xs IH]; intros d k Hv Hk.
  - destruct Hk as [Hk | Hk]; [done | by apply elem_of_nil in Hk].
  - change (nonempty_at (merge_additions (dict_set d k' (chosen_value v' a')) xs) k).
    assert (Hv' : v' ≠ "") by apply (Hv (k', v', a')), list_elem_of_here.
    apply IH; [intros x Hx; by apply Hv, list_elem_of_further|].
    destruct (decide (k = k')) as [->|Hne].
    + left. exists (chosen_value v' a').
      split; [apply dict_get_set_eq | by apply chosen_value_nonempty].
    + destruct Hk as [(v & Hget & Hnz) | Hk].
      * left. exists v. by rewrite dict_get_set_ne.
      * right. simpl in Hk. by apply elem_of_cons in Hk as [|].
Qed.

Lemma keys_merge_additions xs : ∀ d k,
  k ∈ keys (merge_additions d xs) →
  k ∈ keys d ∨ k ∈ ((λ x : string * string * string, x.1.1) <$> xs).
Proof.
  induction xs as [|[[k' v'] a'] xs IH]; intros d k Hk; [by left|].
  change (k ∈ keys (merge_additions (dict_set d k' (chosen_value v' a')) xs)) in Hk.
  apply IH in Hk as [Hk | Hk].
  - apply keys_dict_set in Hk as [Hk | ->]; [by left|].
    right. apply list_elem_of_here.
  - right. by apply list_elem_of_further.
Qed.

Lemma get_merge_removals_other rs : ∀ d k,
  k ∉ rs → dict_get (merge_removals d rs) k = dict_get d k.
Proof.
  induction rs as [|r rs IH]; intros d k Hk; [done|].
  apply not_elem_of_cons in Hk as [Hne Hk].
  change (dict_get (merge_removals (dict_unset d r) rs) k = dict_get d k).
  rewrite IH by done. by apply dict_get_unset_ne.
Qed.

Lemma keys_merge_removals rs : ∀ d k,
  k ∈ keys (merge_removals d rs) → k ∈ keys d ∧ k ∉ rs.
Proof.
  induction rs as [|r rs IH]; intros d k Hk.
  - split; [done | apply not_elem_of_nil].
  - change (k ∈ keys (merge_removals (dict_unset d r) rs)) in Hk.
    apply IH in Hk as [[Hk Hne]%keys_dict_unset Hrs].
    split; [done|]. by apply not_elem_of_cons.
Qed.

Lemma zip_keys (cs : dict) (vals : list string) :
  length vals = length cs →
  (λ x : string * string * string, x.1.1) <$> zip cs vals = keys cs.
Proof.
  intros Hlen. unfold keys.
  rewrite <-(fst_zip cs vals) at 2 by lia.
  by rewrite <-list_fmap_compose.
Qed.

Lemma changes_keys_template S T k : k ∈ keys (changes S T) → k ∈ keys T.
Proof.
  intros [v Hin]%elem_keys. apply elem_changes in Hin as [Hin _].
  apply elem_keys. eauto.
Qed.

Lemma template_key_not_removed S T k : k ∈ keys T → k ∉ removed_keys S T.
Proof. intros Hk [_ Hn]%elem_removed_keys. done. Qed.

(** A store value that is there and not empty survives the merge. *)
Lemma merged_keeps S T vals k v :
  k ∈ keys T → dict_get S k = Some v → v ≠ "" →
  dict_get (merged S T vals) k = Some v.
Proof.
  intros HkT Hget Hv. unfold merged.
  rewrite get_merge_removals_other by by apply template_key_not_removed.
  rewrite get_merge_additions_other; [done|].
  intros Hin. apply list_elem_of_fmap in Hin as [[[k' v'] a] [-> Hin]].
  apply elem_of_zip_l in Hin. apply elem_changes in Hin as (_ & _ & [H|H]);
    simpl in *; congruence.
Qed.

(** After the merge nothing is left to add or to remove. *)
Lemma merged_no_diff S T vals :
  length vals = length (changes S T) →
  changes (merged S T vals) T = [] ∧ removed_keys (merged S T vals) T = [].
Proof.
  intros Hlen. split.
  - apply filter_empty. intros [k v] HinT [Hempty Hv]. simpl in *.
    assert (HkT : k ∈ keys T) by (apply elem_keys; eauto).
    assert (Hne : nonempty_at (merged S T vals) k).
    { unfold merged, nonempty_at.
      rewrite get_merge_removals_other by by apply template_key_not_removed.
      apply nonempty_merge_additions.
      - intros [[k' v'] a] Hx. apply elem_of_zip_l in Hx.
        by apply elem_changes in Hx as (_ & ? & _).
      - rewrite zip_keys by done.
        destruct (dict_get S k) as [v0|] eqn:Hget.
        + destruct (decide (v0 = "")) as [->|Hnz].
          * right. apply elem_keys. exists v. apply elem_changes. auto.
          * left. by exists v0.
        + right. apply elem_keys. exists v. apply elem_changes. auto. }
    destruct Hne as (v0 & Hget & Hnz). rewrite Hget in Hempty. done.
  - apply filter_empty. intros k Hk HnT. apply HnT. unfold merged in Hk.
    apply keys_merge_removals in Hk as [Hk Hnr].
    apply keys_merge_additions in Hk as [Hk | Hk].
    + destruct (decide (k ∈ keys T)) as [|Hn]; [done|].
      destruct Hnr. by apply elem_removed_keys.
    + rewrite zip_keys in Hk by done. by eapply changes_keys_template.
Qed.

(** ** The runs of [update_env_from_template] *)

Lemma update_both_files w T S :
  template_file w = Some T → env_file w = Some S →
  update_env_from_template w = reconcile w.
Proof.
  intros HT HS. unfold update_env_from_template.
  rewrite bind_get_world, HT, HS. reflexivity.
Qed.

Lemma run_update_nodiff w T S :
  template_file w = Some T → env_file w = Some S →
  changes S T = [] → removed_keys S T = [] →
  update_env_from_template w = (Ok tt, loaded w).
Proof.
  intros HT HS Hc Hr. rewrite (update_both_files w T S) by done.
  rewrite reconcile_unfold, HT, HS. simpl. by rewrite Hc, Hr.
Qed.

Lemma diff_cond S T :
  changes S T ≠ [] ∨ removed_keys S T ≠ [] →
  bool_decide (changes S T = []) && bool_decide (removed_keys S T = []) = false.
Proof.
  intros [H|H].
  - by rewrite (bool_decide_eq_false_2 _ H).
  - rewrite (bool_decide_eq_false_2 _ H). apply andb_false_r.
Qed.

Lemma run_update_diff w T S :
  template_file w = Some T → env_file w = Some S →
  changes S T ≠ [] ∨ removed_keys S T ≠ [] →
  update_env_from_template w =
  ask_and_apply (changes S T) (removed_keys S T)
    (World (env_path w) (Some T) (Some S)
       (foldl setdefault_env (environ w) T) (stdin w)
       (trace w ++ report_events (changes S T) (removed_keys S T))
       (openai w) (instances w)).
Proof.
  intros HT HS Hd. rewrite (update_both_files w T S) by done.
  rewrite reconcile_unfold, HT, HS. simpl. rewrite diff_cond by done.
  erewrite bind_run; [|apply run_report].
  unfold loaded. simpl. by rewrite HT, HS.
Qed.

Lemma elem_of_concat {A} (x : A) (l : list A) (ls : list (list A)) :
  l ∈ ls → x ∈ l → x ∈ concat ls.
Proof.
  induction ls as [|l' ls IH]; intros Hl Hx; [by apply elem_of_nil in Hl|].
  simpl. rewrite elem_of_app.
  apply elem_of_cons in Hl as [->|Hl]; [by left | right; auto].
Qed.

Lemma writes_app t1 t2 : writes (t1 ++ t2) = writes t1 ++ writes t2.
Proof. apply filter_app. Qed.

Lemma writes_nowrite t : (∀ e, e ∈ t → is_write e = false) → writes t = [].
Proof.
  intros Hall. apply filter_empty. intros e He. by rewrite (Hall e He).
Qed.

Lemma writes_report cs rs : writes (report_events cs rs) = [].
Proof.
  apply writes_nowrite. intros e He. unfold report_events in He.
  rewrite !elem_of_app in He. destruct He as [He | [He | He]].
  - by apply list_elem_of_singleton in He as ->.
  - by apply list_elem_of_fmap in He as [x [-> _]].
  - destruct (bool_decide (rs = [])); [by apply elem_of_nil in He|].
    by apply list_elem_of_singleton in He as ->.
Qed.

Lemma writes_approval : writes approval_events = [].
Proof. reflexivity. Qed.

Lemma writes_changes path xs :
  writes (concat (change_events path <$> xs)) =
  (λ x : string * string * string, SetKey x.1.1 (chosen_value x.1.2 x.2)) <$> xs.
Proof.
  induction xs as [|[[k v] a] xs IH]; [done|].
  rewrite !fmap_cons. change (concat (?x :: ?l)) with (x ++ concat l).
  by rewrite writes_app, IH.
Qed.

Lemma writes_removals path rs :
  writes (concat (removal_events path <$> rs)) = UnsetKey <$> rs.
Proof.
  induction rs as [|k rs IH]; [done|].
  rewrite !fmap_cons. change (concat (?x :: ?l)) with (x ++ concat l).
  by rewrite writes_app, IH.
Qed.

Lemma run_update_approved w T S a vals rest :
  template_file w = Some T → env_file w = Some S →
  changes S T ≠ [] ∨ removed_keys S T ≠ [] →
  stdin w = a :: vals ++ rest → is_yes a = true →
  length vals = length (changes S T) →
  ∃ w1, update_env_from_template w = (Ok tt, w1) ∧
        template_file w1 = Some T ∧
        env_file w1 = Some (merged S T vals) ∧
        stdin w1 = rest ∧
        trace w1 = trace w ++ report_events (changes S T) (removed_keys S T)
                     ++ approval_events
                     ++ concat (change_events (env_path w) <$> zip (changes S T) vals)
                     ++ concat (removal_events (env_path w) <$> removed_keys S T).
Proof.
  intros HT HS Hd Hin Hyes Hlen.
  rewrite (run_update_diff w T S) by done.
  erewrite (run_ask_approved _ _ _ S a vals rest); [|done..].
  eexists. split; [reflexivity|].
  cbn [template_file env_file stdin trace env_path].
  by rewrite <-!app_assoc.
Qed.

(** ** What a run keeps of the store *)





(** * The claims about reconciliation *)

(** ** What a later run reads *)

Lemma plain_char_facts c :
  plain_char c = true →
  is_space c = false ∧ c ≠ "'"%char ∧ c ≠ ascii_of_nat 34 ∧
  c ≠ "#"%char ∧ c ≠ "$"%char.
Proof.
  destruct c as [[] [] [] [] [] [] [] []]; vm_compute; intros H;
    try discriminate H; repeat split; discriminate.
Qed.

Lemma plain_chars_has_char c s :
  plain_char c = false → plain_chars s = true → has_char c s = false.
Proof.
  intros Hc. induction s as [|c' s IH]; simpl; [done|].
  intros [Hc' Hs]%andb_prop. rewrite IH by done.
  rewrite bool_decide_eq_false_2; [done | congruence].
Qed.

Lemma plain_chars_rstrip s : plain_chars s = true → rstrip s = s.
Proof.
  induction s as [|c s IH]; simpl; [done|].
  intros [Hc Hs]%andb_prop. rewrite IH by done.
  apply plain_char_facts in Hc as (Hsp & _). rewrite Hsp.
  by destruct s.
Qed.

Lemma read_back_plain v : plain v = true → read_back v = Some v.
Proof.
  unfold plain, truthy. intros [Hne Hp]%andb_prop.
  apply negb_true_iff, bool_decide_eq_false in Hne.
  unfold read_back.
  rewrite !plain_chars_has_char by done. simpl.
  destruct v as [|c s]; [done|]. simpl in Hp |- *.
  apply andb_prop in Hp as [Hc Hs].
  pose proof (plain_char_facts c Hc) as (Hsp & Hq1 & Hq2 & Hh & Hd).
  rewrite Hsp.
  rewrite (bool_decide_eq_false_2 _ Hq1), (bool_decide_eq_false_2 _ Hq2). simpl.
  rewrite (bool_decide_eq_false_2 _ Hh). simpl.
  rewrite plain_chars_has_char by done.
  change (match rstrip s with
          | "" => if is_space c then "" else String c ""
          | String a s0 => String c (String a s0)
          end) with (rstrip (String c s)).
  rewrite plain_chars_rstrip; [done|]. simpl. by rewrite Hc, Hs.
Qed.

Lemma replay_nowrite t : ∀ d,
  (∀ e, e ∈ t → is_write e = false) → foldl replay_read d t = d.
Proof.
  induction t as [|e t IH]; intros d Hall; [done|]. simpl.
  rewrite IH by (intros e' He'; by apply Hall, list_elem_of_further).
  specialize (Hall e (list_elem_of_here _ _)). by destruct e.
Qed.

Lemma replay_report d cs rs : foldl replay_read d (report_events cs rs) = d.
Proof.
  apply replay_nowrite. intros e He. unfold report_events in He.
  rewrite !elem_of_app in He. destruct He as [He | [He | He]].
  - by apply list_elem_of_singleton in He as ->.
  - by apply list_elem_of_fmap in He as [x [-> _]].
  - destruct (bool_decide (rs = [])); [by apply elem_of_nil in He|].
    by apply list_elem_of_singleton in He as ->.
Qed.

Lemma replay_changes path xs : ∀ d,
  (∀ x : string * string * string, x ∈ xs → plain (chosen_value x.1.2 x.2) = true) →
  foldl replay_read (Some d) (concat (change_events path <$> xs))
  = Some (merge_additions d xs).
Proof.
  induction xs as [|[[k v] a] xs IH]; intros d Hp; [done|].
  rewrite fmap_cons. change (concat (?x :: ?l)) with (x ++ concat l).
  rewrite foldl_app. simpl.
  rewrite read_back_plain by apply (Hp (k, v, a)), list_elem_of_here.
  rewrite IH by (intros x Hx; by apply Hp, list_elem_of_further). done.
Qed.

Lemma replay_removals path rs : ∀ d,
  foldl replay_read (Some d) (concat (removal_events path <$> rs))
  = Some (merge_removals d rs).
Proof.
  induction rs as [|k rs IH]; intros d; [done|].
  rewrite fmap_cons. change (concat (?x :: ?l)) with (x ++ concat l).
  rewrite foldl_app. simpl. by rewrite IH.
Qed.

(** C3, as the code has it.  Idempotence needs the values written by the
    merge to read back as written.  After a run in which the operator
    approves the merge and answers every prompt, and in which every value
    written (a default or a typed answer) needs no quoting, the store a
    later run reads has an empty diff against the same template, and a
    further run on it returns without a prompt, a print or a write, leaving
    the store as it is. *)
Theorem reconcile_idempotent w T S a vals rest :
  template_file w = Some T → env_file w = Some S →
  stdin w = a :: vals ++ rest → is_yes a = true →
  length vals = length (changes S T) →
  (∀ x : string * string * string,
     x ∈ zip (changes S T) vals → plain (chosen_value x.1.2 x.2) = true) →
  ∃ w1 new S',
    update_env_from_template w = (Ok tt, w1) ∧
    trace w1 = trace w ++ new ∧
    store_as_read S new = Some S' ∧
    changes S' T = [] ∧ removed_keys S' T = [] ∧
    ∀ w2, template_file w2 = Some T → env_file w2 = Some S' →
      ∃ w3, update_env_from_template w2 = (Ok tt, w3) ∧
            trace w3 = trace w2 ∧ stdin w3 = stdin w2 ∧
            env_file w3 = env_file w2.
Proof.
  intros HT HS Hin Hyes Hlen Hplain.
  assert (Hagain : ∀ S', changes S' T = [] → removed_keys S' T = [] →
    ∀ w2, template_file w2 = Some T → env_file w2 = Some S' →
      ∃ w3, update_env_from_template w2 = (Ok tt, w3) ∧
            trace w3 = trace w2 ∧ stdin w3 = stdin w2 ∧
            env_file w3 = env_file w2).
  { intros S' Hc Hr w2 HT2 HS2. exists (loaded w2).
    by rewrite (run_update_nodiff w2 T S'). }
  destruct (decide (changes S T = [] ∧ removed_keys S T = [])) as [[Hc Hr]|Hd].
  - exists (loaded w), [], S. rewrite (run_update_nodiff w T S) by done.
    split; [done|]. split; [simpl; by rewrite app_nil_r|].
    split; [done|]. split; [done|]. split; [done|]. by apply Hagain.
  - assert (Hd' : changes S T ≠ [] ∨ removed_keys S T ≠ []).
    { destruct (decide (changes S T = [])); [right|left]; naive_solver. }
    destruct (run_update_approved w T S a vals rest)
      as (w1 & Hrun & HT1 & HS1 & _ & Htr); [done..|].
    destruct (merged_no_diff S T vals Hlen) as [Hc Hr].
    eexists w1, _, (merged S T vals).
    split; [exact Hrun|]. split; [exact Htr|]. split.
    + unfold store_as_read. rewrite !foldl_app.
      rewrite replay_report.
      rewrite (replay_nowrite approval_events)
        by (intros e He; unfold approval_events in He;
            repeat (apply elem_of_cons in He as [->|He]; [done|]);
            by apply elem_of_nil in He).
      by rewrite replay_changes, replay_removals.
    + split; [done|]. split; [done|]. by apply Hagain.
Qed.

Lemma reconcile_idempotent_witness :
  let w := fresh "/repo/.env" (Some [("A", "1")]) (Some [("A", ""); ("B", "x")])
             ∅ ["y"; "value"] in
  ∃ w1 new S',
    update_env_from_template w = (Ok tt, w1) ∧
    trace w1 = trace w ++ new ∧
    store_as_read [("A", ""); ("B", "x")] new = Some S' ∧
    changes S' [("A", "1")] = [] ∧ removed_keys S' [("A", "1")] = [] ∧
    ∀ w2, template_file w2 = Some [("A", "1")] → env_file w2 = Some S' →
      ∃ w3, update_env_from_template w2 = (Ok tt, w3) ∧
            trace w3 = trace w2 ∧ stdin w3 = stdin w2 ∧
            env_file w3 = env_file w2.
Proof.
  apply (reconcile_idempotent _ [("A", "1")] [("A", ""); ("B", "x")] "y" ["value"] []);
    try reflexivity.
  intros x Hx. apply elem_of_cons in Hx as [->|Hx]; [reflexivity|].
  by apply elem_of_nil in Hx.
Defined.

(** C3 as stated fails.  The operator approves the merge and types two
    single quotes for A; that answer is not blank, so it is written as it
    stands, and the line [A=''] reads back as an empty value.  The store
    the next run reads still lacks a value for A, its diff is not empty,
    and the run asks again.  The same happens when the default accepted is
    a single space. *)
Lemma idempotence_counterexample :
  let T := [("A", "1")] in
  let S := [("A", "")] in
  let first := update_env_from_template (fresh "/repo/.env" (Some T) (Some S) ∅ ["y"; "''"]) in
  first.1 = Ok tt ∧
  writes (trace first.2) = [SetKey "A" "''"] ∧
  store_as_read S (trace first.2) = Some [("A", "")] ∧
  changes [("A", "")] T = [("A", "1")] ∧
  prompts (trace (update_env_from_template
                    (fresh "/repo/.env" (Some T) (Some [("A", "")]) ∅ ["n"])).2)
    = [Prompt "Do you want to apply changes to .env? (y/n) "] ∧
  (let T' := [("A", " ")] in
   let first' := update_env_from_template (fresh "/repo/.env" (Some T') (Some []) ∅ ["y"; ""]) in
   writes (trace first'.2) = [SetKey "A" " "] ∧
   store_as_read [] (trace first'.2) = Some [("A", "")] ∧
   changes [("A", "")] T' = [("A", " ")]).
Proof. vm_compute. repeat split. Qed.

(** C4. Declining is a no-op.  When the diff is not empty and the answer to
    the one approval question is not affirmative, the run ends normally with
    the store file as it was and without any write to it. *)
Theorem decline_is_noop w T S a rest :
  template_file w = Some T → env_file w = Some S →
  changes S T ≠ [] ∨ removed_keys S T ≠ [] →
  stdin w = a :: rest → is_yes a = false →
  ∃ w1, update_env_from_template w = (Ok tt, w1) ∧
        env_file w1 = Some S ∧
        writes (trace w1) = writes (trace w).
Proof.
  intros HT HS Hd Hin Hno.
  rewrite (run_update_diff w T S) by done.
  erewrite run_ask_declined; [|done..].
  eexists. split; [reflexivity|]. cbn [env_file trace]. split; [done|].
  rewrite !writes_app, writes_report.
  change (writes [_; _]) with (@nil event). by rewrite !app_nil_r.
Qed.

Lemma decline_is_noop_witness :
  let w := fresh "/repo/.env" (Some [("A", "1")]) (Some [("A", ""); ("B", "x")])
             ∅ ["no"] in
  ∃ w1, update_env_from_template w = (Ok tt, w1) ∧
        env_file w1 = Some [("A", ""); ("B", "x")] ∧
        writes (trace w1) = writes (trace w).
Proof.
  apply (decline_is_noop _ [("A", "1")] [("A", ""); ("B", "x")] "no" []);
    try reflexivity.
  left. discriminate.
Defined.



(** C6, as the code has it.  An approved merge rewrites the file once per
    key: one [set_key] for every addition, in the template's order and right
    after its prompt, then one [unset_key] for every removal, in the store's
    order.  When every prompt is answered the store ends as the merged
    mapping.  When the input ends before the last addition is answered the
    run raises [EOFError] and the file keeps the additions written so far. *)
Theorem merge_writes_each_key w T S a vals :
  template_file w = Some T → env_file w = Some S →
  changes S T ≠ [] ∨ removed_keys S T ≠ [] →
  is_yes a = true →
  (∀ rest, stdin w = a :: vals ++ rest → length vals = length (changes S T) →
     ∃ w1, update_env_from_template w = (Ok tt, w1) ∧
           env_file w1 = Some (merged S T vals) ∧
           writes (trace w1) =
             writes (trace w) ++ merge_writes (changes S T) vals (removed_keys S T) ∧
           length (merge_writes (changes S T) vals (removed_keys S T)) =
             (length (changes S T) + length (removed_keys S T))%nat) ∧
  (stdin w = a :: vals → (length vals < length (changes S T))%nat →
     ∃ w1, update_env_from_template w = (Raise EOFError, w1) ∧
           env_file w1 = Some (merge_additions S (zip (changes S T) vals)) ∧
           writes (trace w1) =
             writes (trace w) ++
             ((λ x : string * string * string, SetKey x.1.1 (chosen_value x.1.2 x.2))
                <$> zip (changes S T) vals)).
Proof.
  intros HT HS Hd Hyes. split.
  - intros rest Hin Hlen.
    destruct (run_update_approved w T S a vals rest)
      as (w1 & Hrun & _ & HS1 & _ & Htr); [done..|].
    exists w1. split; [done|]. split; [done|]. split.
    + rewrite Htr, !writes_app, writes_report, writes_approval.
      by rewrite writes_changes, writes_removals.
    + unfold merge_writes.
      rewrite length_app, !length_fmap, length_zip_with. lia.
  - intros Hin Hlen. rewrite (run_update_diff w T S) by done.
    match goal with
    | |- context [ask_and_apply ?cs ?rs ?w0] =>
        destruct (run_ask_approved_short cs rs w0 S a vals)
          as (w1 & Hrun & HS1 & Htr); [done..|]
    end.
    exists w1. split; [done|]. split; [done|].
    rewrite Htr. cbn [trace]. by rewrite writes_app, writes_report, app_nil_r.
Qed.

Lemma merge_writes_each_key_witness :
  let w := fresh "/repo/.env" (Some [("A", "1"); ("B", "2")]) (Some [("Z", "9")])
             ∅ ["y"; "x"; ""] in
  ∃ w1, update_env_from_template w = (Ok tt, w1) ∧
        env_file w1 = Some [("A", "x"); ("B", "2")] ∧
        writes (trace w1) = [SetKey "A" "x"; SetKey "B" "2"; UnsetKey "Z"].
Proof.
  destruct (merge_writes_each_key
              (fresh "/repo/.env" (Some [("A", "1"); ("B", "2")]) (Some [("Z", "9")])
                 ∅ ["y"; "x"; ""])
              [("A", "1"); ("B", "2")] [("Z", "9")] "y" ["x"; ""])
    as [Hfull _]; [reflexivity | reflexivity | left; discriminate | reflexivity |].
  destruct (Hfull [] eq_refl eq_refl) as (w1 & Hrun & HS1 & Htr & _).
  exists w1. split; [exact Hrun|]. split; [exact HS1 | exact Htr].
Defined.

(** C6 as stated fails.  With two additions and one removal approved and the
    input ending after the first answer, the run raises [EOFError] and leaves
    the file with the first addition written, the second missing and the
    removal not done: neither the store before the merge nor the merged one.
    With every prompt answered the same merge rewrites the file three
    times. *)
Lemma single_save_counterexample :
  let T := [("A", "1"); ("B", "2")] in
  let S := [("Z", "9")] in
  let cut := update_env_from_template (fresh "/repo/.env" (Some T) (Some S) ∅ ["y"; "x"]) in
  let full := update_env_from_template (fresh "/repo/.env" (Some T) (Some S) ∅ ["y"; "x"; ""]) in
  cut.1 = Raise EOFError ∧
  env_file cut.2 = Some [("Z", "9"); ("A", "x")] ∧
  env_file cut.2 ≠ Some S ∧
  env_file cut.2 ≠ Some (merged S T ["x"; ""]) ∧
  full.1 = Ok tt ∧
  env_file full.2 = Some (merged S T ["x"; ""]) ∧
  writes (trace full.2) = [SetKey "A" "x"; SetKey "B" "2"; UnsetKey "Z"].
Proof. vm_compute. repeat split; discriminate. Qed.

(** C10. In an approved merge the answer typed for an addition decides the
    value passed to [set_key] for its key: an answer that is empty or all
    whitespace passes the template's default, any other answer is passed as
    typed, blanks around it included. *)
Theorem answer_or_default w T S a vals rest i k v x :
  template_file w = Some T → env_file w = Some S →
  stdin w = a :: vals ++ rest → is_yes a = true →
  length vals = length (changes S T) →
  changes S T !! i = Some (k, v) → vals !! i = Some x →
  SetKey k (if all_space x then v else x)
    ∈ trace (update_env_from_template w).2.
Proof.
  intros HT HS Hin Hyes Hlen Hi Hx.
  assert (Hd : changes S T ≠ [] ∨ removed_keys S T ≠ []).
  { left. intros Hnil. by rewrite Hnil in Hi. }
  destruct (run_update_approved w T S a vals rest)
    as (w1 & Hrun & _ & _ & _ & Htr); [done..|].
  rewrite Hrun. simpl. rewrite <-chosen_value_spec.
  rewrite Htr, !elem_of_app. right; right; right; left.
  apply (elem_of_concat _ (change_events (env_path w) (k, v, x))).
  - apply list_elem_of_fmap. exists (k, v, x). split; [done|].
    apply list_elem_of_lookup_2 with i. rewrite lookup_zip_with.
    by rewrite Hi, Hx.
  - simpl. apply list_elem_of_further, list_elem_of_here.
Qed.

Lemma answer_or_default_witness :
  let w := fresh "/repo/.env" (Some [("A", "1"); ("B", "2")]) (Some [("Z", "9")])
             ∅ ["Y"; "  "; " v "] in
  let w1 := (update_env_from_template w).2 in
  SetKey "A" "1" ∈ trace w1 ∧ SetKey "B" " v " ∈ trace w1.
Proof.
  split.
  - apply (answer_or_default
             (fresh "/repo/.env" (Some [("A", "1"); ("B", "2")]) (Some [("Z", "9")])
                ∅ ["Y"; "  "; " v "])
             [("A", "1"); ("B", "2")] [("Z", "9")] "Y" ["  "; " v "] [] 0 "A" "1" "  ");
      reflexivity.
  - apply (answer_or_default
             (fresh "/repo/.env" (Some [("A", "1"); ("B", "2")]) (Some [("Z", "9")])
                ∅ ["Y"; "  "; " v "])
             [("A", "1"); ("B", "2")] [("Z", "9")] "Y" ["  "; " v "] [] 1 "B" "2" " v ");
      reflexivity.
Defined.

(** ** Running [Config.__init__] *)

Lemma bind_getenv {A} key dflt (f : pyval → M A) w :
  (getenv key dflt ≫= f) w = f (from_option PyStr dflt (environ w !! key)) w.
Proof. reflexivity. Qed.

Lemma bind_set_openai {A} name v (f : () → M A) w :
  (set_openai name v ≫= f) w = f tt (with_openai (<[name := v]> (openai w)) w).
Proof. reflexivity. Qed.

Lemma bind_py_int {A} dflt o n (f : pyval → M A) w :
  env_int dflt o = Some n →
  (py_int (from_option PyStr (PyInt dflt) o) ≫= f) w = f (PyInt n) w.
Proof.
  destruct o as [s|]; simpl; [intros ->; done | by intros [= ->]].
Qed.

Lemma bind_py_int_raise {A} dflt o (f : pyval → M A) w :
  env_int dflt o = None →
  (py_int (from_option PyStr (PyInt dflt) o) ≫= f) w = (Raise ValueError, w).
Proof. destruct o as [s|]; simpl; [intros ->; done | done]. Qed.

Lemma eq_True_no_default (o : option string) :
  bool_decide (from_option PyStr PyNone o = PyStr "True")
  = bool_decide (o = Some "True").
Proof.
  destruct o as [s|]; [|reflexivity].
  apply bool_decide_ext. simpl. split; congruence.
Qed.

Lemma eq_True_default_True (o : option string) :
  bool_decide (from_option PyStr (PyStr "True") o = PyStr "True")
  = bool_decide (o = Some "True" ∨ o = None).
Proof.
  destruct o as [s|]; [|reflexivity].
  apply bool_decide_ext. simpl.
  split; [intros [= ->]; by left | by intros [[= ->]|]].
Qed.

Ltac step_init :=
  repeat first
    [ rewrite bind_getenv; cbv beta
    | rewrite bind_set_openai; cbv beta
    | rewrite bind_ret; cbv beta
    | rewrite bind_assoc ].

Ltac lookup_attr :=
  repeat first
    [ rewrite lookup_insert_eq
    | rewrite lookup_insert_ne by done
    | rewrite lookup_empty ].

Lemma Config_init_raise self w e w1 :
  update_env_from_template w = (Raise e, w1) →
  Config_init self w = (Raise e, w1).
Proof. intros Hupd. unfold Config_init. cbv zeta. by erewrite bind_raise. Qed.

Lemma Config_init_fast_invalid self w w1 :
  update_env_from_template w = (Ok tt, w1) →
  env_int 4000 (environ w1 !! "FAST_TOKEN_LIMIT") = None →
  Config_init self w = (Raise ValueError, w1).
Proof.
  intros Hupd Hfast. unfold Config_init. cbv zeta.
  erewrite bind_run; [|exact Hupd]. step_init.
  by rewrite bind_py_int_raise.
Qed.

Lemma Config_init_smart_invalid self w w1 f :
  update_env_from_template w = (Ok tt, w1) →
  env_int 4000 (environ w1 !! "FAST_TOKEN_LIMIT") = Some f →
  env_int 8000 (environ w1 !! "SMART_TOKEN_LIMIT") = None →
  Config_init self w = (Raise ValueError, w1).
Proof.
  intros Hupd Hfast Hsmart. unfold Config_init. cbv zeta.
  erewrite bind_run; [|exact Hupd]. step_init.
  rewrite (bind_py_int _ _ f) by done. step_init.
  by rewrite bind_py_int_raise.
Qed.

Lemma Config_init_ok w w1 f s :
  update_env_from_template w = (Ok tt, w1) →
  env_int 4000 (environ w1 !! "FAST_TOKEN_LIMIT") = Some f →
  env_int 8000 (environ w1 !! "SMART_TOKEN_LIMIT") = Some s →
  ∃ self w', Config_init ∅ w = (Ok self, w') ∧ initialised w1 f s self w'.
Proof.
  intros Hupd Hfast Hsmart. unfold Config_init. cbv zeta.
  erewrite bind_run; [|exact Hupd]. step_init.
  rewrite (bind_py_int _ _ f) by done. step_init.
  rewrite (bind_py_int _ _ s) by done. step_init.
  unfold init_azure. rewrite lookup_insert_eq.
  unfold py_eq. change (py_truthy (default PyNone (Some (PyBool ?b)))) with b.
  rewrite !eq_True_no_default.
  case_bool_decide as Hazure; step_init.
  all: rewrite eq_True_default_True.
  all: eexists _, _; split; [reflexivity|].
  all: unfold initialised; cbn [env_file environ trace instances openai with_openai].
  all: repeat split; try done; lookup_attr; try done.
  - by rewrite (bool_decide_eq_true_2 _ Hazure).
  - by rewrite (bool_decide_eq_false_2 _ Hazure).
Qed.

Lemma Config_init_inv w self w' :
  Config_init ∅ w = (Ok self, w') →
  ∃ f s,
    env_int 4000 (environ (update_env_from_template w).2 !! "FAST_TOKEN_LIMIT") = Some f ∧
    env_int 8000 (environ (update_env_from_template w).2 !! "SMART_TOKEN_LIMIT") = Some s ∧
    initialised (update_env_from_template w).2 f s self w'.
Proof.
  intros Hinit.
  destruct (update_env_from_template w) as [[[]|e] w1] eqn:Hupd; simpl.
  - destruct (env_int 4000 (environ w1 !! "FAST_TOKEN_LIMIT")) as [f|] eqn:Hf.
    + destruct (env_int 8000 (environ w1 !! "SMART_TOKEN_LIMIT")) as [s|] eqn:Hs.
      * destruct (Config_init_ok w w1 f s Hupd Hf Hs) as (self0 & w0 & Hrun & Hpost).
        rewrite Hrun in Hinit. injection Hinit as <- <-. eauto.
      * rewrite (Config_init_smart_invalid ∅ w w1 f Hupd Hf Hs) in Hinit. done.
    + rewrite (Config_init_fast_invalid ∅ w w1 Hupd Hf) in Hinit. done.
  - rewrite (Config_init_raise ∅ w e w1 Hupd) in Hinit. done.
Qed.

Lemma Config_call_first w self w' :
  instances w = None → Config_init ∅ w = (Ok self, w') →
  Config_call w = (Ok self, with_instances (Some self) w').
Proof.
  intros Hnone Hinit. unfold Config_call. rewrite bind_get_world, Hnone.
  erewrite bind_run; [|exact Hinit]. reflexivity.
Qed.

Lemma Config_call_raise w e w' :
  instances w = None → Config_init ∅ w = (Raise e, w') →
  Config_call w = (Raise e, w').
Proof.
  intros Hnone Hinit. unfold Config_call. rewrite bind_get_world, Hnone.
  by erewrite bind_raise.
Qed.

Lemma run_update_no_template w :
  template_file w = None →
  update_env_from_template w = (Ok tt, emit (Print msg_template_missing) w).
Proof.
  intros HT. unfold update_env_from_template. by rewrite bind_get_world, HT.
Qed.

Lemma run_update_no_store_declined w a rest :
  is_Some (template_file w) → env_file w = None →
  stdin w = a :: rest → is_yes a = false →
  update_env_from_template w =
  (Ok tt,
   emit (Print msg_env_missing)
     (with_stdin rest
        (emit (Prompt ("File " +:+ env_path w
                       +:+ " not found. Create an empty file? (y/n) ")) w))).
Proof.
  intros [T HT] HS Hin Hno. unfold update_env_from_template.
  rewrite bind_get_world, HT, HS. simpl.
  by rewrite (bind_input_cons _ _ _ _ _ Hin), Hno.
Qed.

(** Reconciliation does not touch the singleton table. *)
Section instances_kept.
Variable i : option object.

Local Abbreviation P := (instances_are i).

Lemma keeps_instances_modify g :
  (∀ w, instances (g w) = instances w) → keeps P (modify g).
Proof.
  intros Hg. apply keeps_modify. intros w Hw.
  unfold instances_are. by rewrite Hg.
Qed.

Lemma keeps_instances_input prompt : keeps P (input prompt).
Proof. intros w Hw. unfold input. by destruct (stdin w). Qed.

Lemma keeps_instances_apply_change kv : keeps P (apply_change kv).
Proof.
  destruct kv as [k v]. unfold apply_change.
  apply keeps_bind; [apply keeps_instances_input|]. intros a.
  apply keeps_get_world. intros w0.
  destruct (truthy (strip a)).
  all: apply keeps_bind; [|intros _]; by apply keeps_instances_modify.
Qed.

Lemma keeps_instances_apply_removal k : keeps P (apply_removal k).
Proof.
  unfold apply_removal. apply keeps_get_world. intros w0.
  apply keeps_bind; [|intros _]; by apply keeps_instances_modify.
Qed.

Lemma keeps_instances_report cs rs : keeps P (report cs rs).
Proof.
  intros w Hw. rewrite run_report. exact Hw.
Qed.

Lemma keeps_instances_ask_and_apply cs rs : keeps P (ask_and_apply cs rs).
Proof.
  unfold ask_and_apply.
  apply keeps_bind; [apply keeps_instances_input|]. intros a.
  destruct (is_yes a); [|by apply keeps_instances_modify].
  do 2 (apply keeps_bind; [by apply keeps_instances_modify|]; intros _).
  apply keeps_bind; [|intros _]; apply keeps_for_each; intros x _.
  - apply keeps_instances_apply_change.
  - apply keeps_instances_apply_removal.
Qed.

Lemma keeps_instances_reconcile : keeps P reconcile.
Proof.
  intros w Hw. rewrite reconcile_unfold. simpl.
  destruct (_ && _); [exact Hw|].
  apply keeps_bind; [apply keeps_instances_report | | exact Hw].
  intros _. apply keeps_instances_ask_and_apply.
Qed.

Lemma keeps_instances_update : keeps P update_env_from_template.
Proof.
  unfold update_env_from_template. apply keeps_get_world. intros w0.
  destruct (negb (is_file (template_file w0)));
    [by apply keeps_instances_modify|].
  destruct (negb (is_file (env_file w0))); [|apply keeps_instances_reconcile].
  apply keeps_bind; [apply keeps_instances_input|]. intros a.
  destruct (is_yes a); [|by apply keeps_instances_modify].
  apply keeps_bind; [by apply keeps_instances_modify|]. intros _.
  apply keeps_instances_reconcile.
Qed.
End instances_kept.

Lemma update_instances w r w1 :
  update_env_from_template w = (r, w1) → instances w1 = instances w.
Proof.
  intros Hupd. change w1 with (r, w1).2. rewrite <-Hupd.
  by apply (keeps_instances_update (instances w)).
Qed.

(** * The claims about the registry *)

(** C2, as the code has it.  When the template file is absent, or the store
    file is absent and the operator declines to create it,
    [update_env_from_template] prints an error line and returns normally:
    the store file and the environment are as before and nothing is
    written.  No error reaches the caller, so [Config()] goes on to populate
    the fields from the environment and, when the two token limits parse,
    returns the instance and keeps it as the singleton. *)
Theorem missing_file_not_fatal w :
  template_file w = None ∨
  (is_Some (template_file w) ∧ env_file w = None ∧
   ∃ a rest, stdin w = a :: rest ∧ is_yes a = false) →
  ∃ w1 msg,
    update_env_from_template w = (Ok tt, w1) ∧
    last (trace w1) = Some (Print msg) ∧
    (msg = msg_template_missing ∨ msg = msg_env_missing) ∧
    env_file w1 = env_file w ∧ environ w1 = environ w ∧
    writes (trace w1) = writes (trace w) ∧
    ∀ f s,
      instances w = None →
      env_int 4000 (environ w !! "FAST_TOKEN_LIMIT") = Some f →
      env_int 8000 (environ w !! "SMART_TOKEN_LIMIT") = Some s →
      ∃ self w', Config_call w = (Ok self, w') ∧
                 instances w' = Some self ∧
                 self !! "fast_token_limit" = Some (PyInt f) ∧
                 self !! "smart_token_limit" = Some (PyInt s).
Proof.
  intros Hmiss.
  assert (∃ w1 msg,
    update_env_from_template w = (Ok tt, w1) ∧
    last (trace w1) = Some (Print msg) ∧
    (msg = msg_template_missing ∨ msg = msg_env_missing) ∧
    env_file w1 = env_file w ∧ environ w1 = environ w ∧
    writes (trace w1) = writes (trace w)) as (w1 & msg & Hupd & Hlast & Hmsg & HS & Henv & Hwr).
  { destruct Hmiss as [HT | (HT & HS & a & rest & Hin & Hno)].
    - exists (emit (Print msg_template_missing) w), msg_template_missing.
      split; [by apply run_update_no_template|]. simpl.
      rewrite last_snoc, writes_app. repeat split; auto.
      by rewrite app_nil_r.
    - rewrite (run_update_no_store_declined w a rest) by done.
      eexists _, msg_env_missing. split; [reflexivity|]. simpl.
      rewrite last_snoc, !writes_app. repeat split; auto.
      by rewrite !app_nil_r. }
  exists w1, msg. repeat split; try done.
  intros f s Hnone Hf Hs. rewrite <-Henv in Hf, Hs.
  destruct (Config_init_ok w w1 f s Hupd Hf Hs)
    as (self & w' & Hrun & Hfast & Hsmart & _).
  exists self, (with_instances (Some self) w').
  split; [by apply Config_call_first|]. done.
Qed.

Lemma missing_file_not_fatal_witness :
  let w := fresh "/repo/.env" None (Some [("A", "1")]) ∅ [] in
  ∃ w1, update_env_from_template w = (Ok tt, w1) ∧
        last (trace w1) = Some (Print msg_template_missing) ∧
        env_file w1 = Some [("A", "1")] ∧
        ∃ self w', Config_call w = (Ok self, w') ∧
                   instances w' = Some self ∧
                   self !! "fast_token_limit" = Some (PyInt 4000) ∧
                   self !! "smart_token_limit" = Some (PyInt 8000).
Proof.
  destruct (missing_file_not_fatal
              (fresh "/repo/.env" None (Some [("A", "1")]) ∅ [])
              (or_introl eq_refl))
    as (w1 & msg & Hupd & Hlast & _ & Hfile & _ & _ & Hcall).
  exists w1. split; [exact Hupd|].
  injection Hupd as <-. split; [reflexivity|]. split; [exact Hfile|].
  exact (Hcall 4000 8000 eq_refl eq_refl eq_refl).
Defined.

(** C2 as stated fails.  With the template absent, and also with the store
    absent and its creation declined, [Config()] returns an instance, keeps
    it as the singleton and has populated its typed fields. *)
Lemma fatal_counterexample :
  (let w := fresh "/repo/.env" None (Some [("A", "1")]) ∅ [] in
   template_file w = None ∧
   ∃ self w', Config_call w = (Ok self, w') ∧
              instances w' = Some self ∧
              self !! "fast_token_limit" = Some (PyInt 4000)) ∧
  (let w := fresh "/repo/.env" (Some [("A", "1")]) None ∅ ["n"] in
   env_file w = None ∧ is_yes "n" = false ∧
   ∃ self w', Config_call w = (Ok self, w') ∧
              env_file w' = None ∧
              instances w' = Some self ∧
              self !! "fast_token_limit" = Some (PyInt 4000)).
Proof.
  split; simpl.
  - split; [reflexivity|].
    edestruct (Config_init_ok (fresh "/repo/.env" None (Some [("A", "1")]) ∅ []))
      as (self & w' & Hrun & Hfast & _); [reflexivity..|].
    exists self, (with_instances (Some self) w').
    split; [by apply Config_call_first|]. by split.
  - split; [reflexivity|]. split; [reflexivity|].
    edestruct (Config_init_ok (fresh "/repo/.env" (Some [("A", "1")]) None ∅ ["n"]))
      as (self & w' & Hrun & Hfast & Hrest); [reflexivity..|].
    exists self, (with_instances (Some self) w').
    split; [by apply Config_call_first|].
    split; [|by split].
    destruct Hrest as (_ & _ & _ & _ & _ & _ & Hfile & _).
    cbn [env_file with_instances]. by rewrite Hfile.
Qed.

(** C7, as the code has it.  The two token limits are [int(os.getenv(key,
    default))] with no handler around: an absent key gives the default
    (4000, 8000), a value that [int] accepts gives that integer, and a value
    that [int] rejects makes [Config()] raise [ValueError]; then no instance
    is returned or kept. *)
Theorem token_limits_parse_or_raise w w1 :
  instances w = None →
  update_env_from_template w = (Ok tt, w1) →
  match env_int 4000 (environ w1 !! "FAST_TOKEN_LIMIT"),
        env_int 8000 (environ w1 !! "SMART_TOKEN_LIMIT") with
  | Some f, Some s =>
      ∃ self w', Config_call w = (Ok self, w') ∧
                 instances w' = Some self ∧
                 self !! "fast_token_limit" = Some (PyInt f) ∧
                 self !! "smart_token_limit" = Some (PyInt s)
  | _, _ =>
      ∃ w', Config_call w = (Raise ValueError, w') ∧ instances w' = None
  end.
Proof.
  intros Hnone Hupd.
  assert (Hnone1 : instances w1 = None)
    by (rewrite <-Hnone; by eapply update_instances).
  destruct (env_int 4000 (environ w1 !! "FAST_TOKEN_LIMIT")) as [f|] eqn:Hf.
  - destruct (env_int 8000 (environ w1 !! "SMART_TOKEN_LIMIT")) as [s|] eqn:Hs.
    + destruct (Config_init_ok w w1 f s Hupd Hf Hs)
        as (self & w' & Hrun & Hfast & Hsmart & _).
      exists self, (with_instances (Some self) w').
      split; [by apply Config_call_first|]. done.
    + exists w1. split; [|done]. apply Config_call_raise; [done|].
      by eapply Config_init_smart_invalid.
  - exists w1. split; [|done]. apply Config_call_raise; [done|].
    by apply Config_init_fast_invalid.
Qed.

Lemma token_limits_parse_or_raise_witness :
  let w := fresh "/repo/.env" (Some [("FAST_TOKEN_LIMIT", "4000")])
             (Some [("FAST_TOKEN_LIMIT", "12_000 ")])
             {["FAST_TOKEN_LIMIT" := "12_000 "]} [] in
  ∃ self w', Config_call w = (Ok self, w') ∧
             instances w' = Some self ∧
             self !! "fast_token_limit" = Some (PyInt 12000) ∧
             self !! "smart_token_limit" = Some (PyInt 8000).
Proof.
  exact (token_limits_parse_or_raise
           (fresh "/repo/.env" (Some [("FAST_TOKEN_LIMIT", "4000")])
              (Some [("FAST_TOKEN_LIMIT", "12_000 ")])
              {["FAST_TOKEN_LIMIT" := "12_000 "]} [])
           (loaded (fresh "/repo/.env" (Some [("FAST_TOKEN_LIMIT", "4000")])
              (Some [("FAST_TOKEN_LIMIT", "12_000 ")])
              {["FAST_TOKEN_LIMIT" := "12_000 "]} []))
           eq_refl eq_refl).
Defined.

(** C7 as stated fails.  A store whose FAST_TOKEN_LIMIT is "abc", loaded
    into the environment at import, makes [Config()] raise [ValueError]
    instead of falling back to 4000; no instance is kept. *)
Lemma silent_default_counterexample :
  let w := fresh "/repo/.env" (Some [("FAST_TOKEN_LIMIT", "4000")])
             (Some [("FAST_TOKEN_LIMIT", "abc")]) ∅ [] in
  int_of_str "abc" = None ∧
  ∃ w', main w = (Raise ValueError, w') ∧
        environ w' !! "FAST_TOKEN_LIMIT" = Some "abc" ∧
        instances w' = None.
Proof.
  simpl. split; [reflexivity|].
  eexists. split; [|split].
  - unfold main. erewrite bind_run; [|reflexivity].
    apply Config_call_raise; [reflexivity|].
    apply Config_init_fast_invalid; reflexivity.
  - reflexivity.
  - reflexivity.
Qed.

(** C8, as the code has it.  [use_azure] is true exactly when the value
    [os.getenv] returns for USE_AZURE is "True", and false for any other
    value and for an absent key.  [wipe_redis_on_start] is the same
    comparison over [os.getenv("WIPE_REDIS_ON_START", "True")]: true when the
    value is "True" and also when the key is absent, false for any other
    value. *)
Theorem flags_compare_True w self w' :
  Config_init ∅ w = (Ok self, w') →
  let e := environ (update_env_from_template w).2 in
  self !! "use_azure"
    = Some (PyBool (bool_decide (e !! "USE_AZURE" = Some "True"))) ∧
  self !! "wipe_redis_on_start"
    = Some (PyBool (bool_decide (e !! "WIPE_REDIS_ON_START" = Some "True"
                                 ∨ e !! "WIPE_REDIS_ON_START" = None))).
Proof.
  intros Hinit. simpl.
  destruct (Config_init_inv w self w' Hinit)
    as (f & s & _ & _ & _ & _ & Hazure & Hwipe & _).
  by split.
Qed.

Lemma flags_compare_True_witness :
  let w := fresh "/repo/.env" (Some []) (Some [])
             {["USE_AZURE" := "True"; "WIPE_REDIS_ON_START" := "true"]} [] in
  ∃ self w', Config_init ∅ w = (Ok self, w') ∧
             self !! "use_azure" = Some (PyBool true) ∧
             self !! "wipe_redis_on_start" = Some (PyBool false).
Proof.
  edestruct (Config_init_ok
              (fresh "/repo/.env" (Some []) (Some [])
                 {["USE_AZURE" := "True"; "WIPE_REDIS_ON_START" := "true"]} []))
    as (self & w' & Hrun & _); [reflexivity..|].
  exists self, w'. split; [exact Hrun|].
  exact (flags_compare_True _ self w' Hrun).
Defined.

(** C8 as stated fails.  With WIPE_REDIS_ON_START absent from the template,
    the store and the environment, [wipe_redis_on_start] is true, not
    false. *)
Lemma absent_flag_counterexample :
  let w := fresh "/repo/.env" (Some [("A", "1")]) (Some [("A", "1")]) ∅ [] in
  ∃ self w', Config_call w = (Ok self, w') ∧
             environ w' !! "WIPE_REDIS_ON_START" = None ∧
             self !! "wipe_redis_on_start" = Some (PyBool true).
Proof.
  edestruct (Config_init_ok
              (fresh "/repo/.env" (Some [("A", "1")]) (Some [("A", "1")]) ∅ []))
    as (self & w' & Hrun & _ & _ & _ & Hwipe & _ & _ & _ & _ & Henv & _);
    [reflexivity..|].
  exists self, (with_instances (Some self) w').
  split; [by apply Config_call_first|].
  cbn [environ with_instances]. rewrite Henv. split; [reflexivity|].
  exact Hwipe.
Qed.

(** [use_mac_os_tts] receives what [os.getenv] returns, uncompared. *)
Lemma use_mac_os_tts_value w self w' :
  Config_init ∅ w = (Ok self, w') →
  self !! "use_mac_os_tts"
    = Some (from_option PyStr PyNone
              (environ (update_env_from_template w).2 !! "USE_MAC_OS_TTS")).
Proof.
  intros Hinit.
  by destruct (Config_init_inv w self w' Hinit)
    as (f & s & _ & _ & _ & _ & _ & _ & Hmac & _).
Qed.

(** C9, as the code has it.  When [use_azure] is false the instance has no
    attribute [openai_api_base], [openai_api_version] or
    [openai_deployment_id]: lines 108-110 are skipped and nothing else
    assigns them, so reading one raises [AttributeError]. *)
Theorem azure_fields_unassigned w self w' :
  Config_init ∅ w = (Ok self, w') →
  self !! "use_azure" = Some (PyBool false) →
  getattr self "openai_api_base" = Raise AttributeError ∧
  getattr self "openai_api_version" = Raise AttributeError ∧
  getattr self "openai_deployment_id" = Raise AttributeError.
Proof.
  intros Hinit Hflag.
  destruct (Config_init_inv w self w' Hinit)
    as (f & s & _ & _ & _ & _ & Hazure & _ & _ & _ & Hoff & _).
  rewrite Hazure in Hflag. injection Hflag as Hflag.
  apply bool_decide_eq_false in Hflag.
  destruct (Hoff Hflag) as (Hbase & Hversion & Hid & _).
  unfold getattr. by rewrite Hbase, Hversion, Hid.
Qed.

Lemma azure_fields_unassigned_witness :
  let w := fresh "/repo/.env" (Some []) (Some [])
             {["USE_AZURE" := "False"; "OPENAI_AZURE_API_BASE" := "https://x"]} [] in
  ∃ self w', Config_init ∅ w = (Ok self, w') ∧
             self !! "use_azure" = Some (PyBool false) ∧
             getattr self "openai_api_base" = Raise AttributeError ∧
             getattr self "openai_api_version" = Raise AttributeError ∧
             getattr self "openai_deployment_id" = Raise AttributeError.
Proof.
  edestruct (Config_init_ok
              (fresh "/repo/.env" (Some []) (Some [])
                 {["USE_AZURE" := "False"; "OPENAI_AZURE_API_BASE" := "https://x"]} []))
    as (self & w' & Hrun & _ & _ & Hazure & _); [reflexivity..|].
  exists self, w'. split; [exact Hrun|]. split; [exact Hazure|].
  exact (azure_fields_unassigned _ self w' Hrun Hazure).
Defined.

(** C9 as stated fails.  With USE_AZURE unset the instance is built with
    [use_azure] false, and reading [openai_api_base] does not give [None] or
    an empty string: it raises [AttributeError]. *)
Lemma unset_default_counterexample :
  let w := fresh "/repo/.env" (Some [("A", "1")]) (Some [("A", "1")]) ∅ [] in
  ∃ self w', Config_call w = (Ok self, w') ∧
             self !! "use_azure" = Some (PyBool false) ∧
             getattr self "openai_api_base" = Raise AttributeError ∧
             getattr self "openai_api_base" ≠ Ok PyNone ∧
             getattr self "openai_api_base" ≠ Ok (PyStr "").
Proof.
  edestruct (Config_init_ok
              (fresh "/repo/.env" (Some [("A", "1")]) (Some [("A", "1")]) ∅ []))
    as (self & w' & Hrun & _ & _ & Hazure & _ & _ & _ & Hoff & _);
    [reflexivity..|].
  exists self, (with_instances (Some self) w').
  split; [by apply Config_call_first|]. split; [exact Hazure|].
  destruct Hoff as (Hbase & _); [discriminate|].
  unfold getattr. rewrite Hbase. repeat split; discriminate.
Qed.

(** ** The examples of section 8 of the specification *)

(** Removal correctness: template [{A: "1"}], store [{A: "", B: "x"}]; the
    diff is additions [{A}], removals [{B}], and after approval with A left
    at its default the store is [{A: "1"}]. *)
Example removal_correctness :
  changes [("A", ""); ("B", "x")] [("A", "1")] = [("A", "1")] ∧
  removed_keys [("A", ""); ("B", "x")] [("A", "1")] = ["B"] ∧
  env_file (update_env_from_template
              (fresh "/repo/.env" (Some [("A", "1")]) (Some [("A", ""); ("B", "x")])
                 ∅ ["y"; ""])).2
    = Some [("A", "1")].
Proof. repeat split. Qed.

(** Addition skipped for an empty default: template [{A: ""}], empty store;
    nothing is proposed and the run asks nothing. *)
Example empty_default_skipped :
  changes [] [("A", "")] = [] ∧
  trace (update_env_from_template
           (fresh "/repo/.env" (Some [("A", "")]) (Some []) ∅ ["y"])).2 = [].
Proof. repeat split. Qed.

(** * Further properties of the code *)

(** ** An end of input shows at a question *)

Lemma eof_at_prompt_ret {A} (a : A) : eof_at_prompt (mret a).
Proof. intros w w' H. discriminate H. Qed.

Lemma eof_at_prompt_modify g : eof_at_prompt (modify g).
Proof. intros w w' H. discriminate H. Qed.

Lemma eof_at_prompt_input prompt : eof_at_prompt (input prompt).
Proof.
  intros w w'. unfold input. destruct (stdin w) eqn:Hin; [|discriminate].
  intros [= <-]. split; [done|]. by exists (trace w), prompt.
Qed.

Lemma eof_at_prompt_bind {A B} (m : M A) (f : A → M B) :
  eof_at_prompt m → (∀ a, eof_at_prompt (f a)) → eof_at_prompt (m ≫= f).
Proof.
  intros Hm Hf w w'. unfold mbind, M_bind.
  destruct (m w) as [[a|e0] w0] eqn:Hrun.
  - apply Hf.
  - intros [= -> <-]. by eapply Hm.
Qed.

Lemma eof_at_prompt_get_world {A} (f : world → M A) :
  (∀ w0, eof_at_prompt (f w0)) → eof_at_prompt (get_world ≫= f).
Proof. intros Hf w w'. rewrite bind_get_world. apply Hf. Qed.

Lemma eof_at_prompt_for_each {A} (l : list A) (body : A → M unit) :
  (∀ x, eof_at_prompt (body x)) → eof_at_prompt (for_each l body).
Proof.
  intros Hbody. induction l as [|x l IH]; simpl; [apply eof_at_prompt_ret|].
  apply eof_at_prompt_bind; [apply Hbody | by intros _].
Qed.

Lemma eof_at_prompt_apply_change kv : eof_at_prompt (apply_change kv).
Proof.
  destruct kv as [k v]. unfold apply_change.
  apply eof_at_prompt_bind; [apply eof_at_prompt_input|]. intros a.
  apply eof_at_prompt_get_world. intros w0.
  destruct (truthy (strip a));
    (apply eof_at_prompt_bind; [|intros _]; apply eof_at_prompt_modify).
Qed.

Lemma eof_at_prompt_apply_removal k : eof_at_prompt (apply_removal k).
Proof.
  unfold apply_removal. apply eof_at_prompt_get_world. intros w0.
  apply eof_at_prompt_bind; [|intros _]; apply eof_at_prompt_modify.
Qed.

Lemma eof_at_prompt_ask_and_apply cs rs : eof_at_prompt (ask_and_apply cs rs).
Proof.
  unfold ask_and_apply.
  apply eof_at_prompt_bind; [apply eof_at_prompt_input|]. intros a.
  destruct (is_yes a); [|apply eof_at_prompt_modify].
  do 2 (apply eof_at_prompt_bind; [apply eof_at_prompt_modify|]; intros _).
  apply eof_at_prompt_bind; [|intros _]; apply eof_at_prompt_for_each.
  - apply eof_at_prompt_apply_change.
  - apply eof_at_prompt_apply_removal.
Qed.

Lemma eof_at_prompt_reconcile : eof_at_prompt reconcile.
Proof.
  intros w w'. rewrite reconcile_unfold. simpl.
  destruct (_ && _); [discriminate|].
  erewrite bind_run; [|apply run_report]. apply eof_at_prompt_ask_and_apply.
Qed.

(** X2. When reconciliation ends in [EOFError], the input has been read to
    its end and the last thing on the console is the question that found
    no answer. *)
Theorem update_eof_at_question w w' :
  update_env_from_template w = (Raise EOFError, w') →
  stdin w' = [] ∧ ∃ t p, trace w' = t ++ [Prompt p].
Proof.
  revert w w'. change (eof_at_prompt update_env_from_template).
  unfold update_env_from_template. apply eof_at_prompt_get_world. intros w0.
  destruct (negb (is_file (template_file w0))); [apply eof_at_prompt_modify|].
  destruct (negb (is_file (env_file w0))); [|apply eof_at_prompt_reconcile].
  apply eof_at_prompt_bind; [apply eof_at_prompt_input|]. intros a.
  destruct (is_yes a); [|apply eof_at_prompt_modify].
  apply eof_at_prompt_bind; [apply eof_at_prompt_modify|]. intros _.
  apply eof_at_prompt_reconcile.
Qed.

Lemma update_eof_at_question_witness :
  let w := fresh "/repo/.env" (Some [("A", "1")]) (Some []) ∅ ["y"] in
  (update_env_from_template w).1 = Raise EOFError ∧
  stdin (update_env_from_template w).2 = [] ∧
  ∃ t p, trace (update_env_from_template w).2 = t ++ [Prompt p].
Proof.
  split; [reflexivity|].
  exact (update_eof_at_question
           (fresh "/repo/.env" (Some [("A", "1")]) (Some []) ∅ ["y"])
           (update_env_from_template
              (fresh "/repo/.env" (Some [("A", "1")]) (Some []) ∅ ["y"])).2
           eq_refl).
Defined.

(** ** How much a run asks *)

Lemma reads_le_ret {A} (a : A) : reads_le 0 (mret a).
Proof. intros w. simpl. lia. Qed.

Lemma prompts_snoc t e :
  prompts (t ++ [e]) = prompts t ++ (if is_prompt e then [e] else []).
Proof.
  unfold prompts. rewrite filter_app. f_equal. by destruct e.
Qed.

Lemma reads_le_print line : reads_le 0 (print line).
Proof. intros w. simpl. rewrite prompts_snoc. simpl. rewrite app_nil_r. lia. Qed.

Lemma reads_le_file g e :
  is_prompt e = false →
  (∀ w, stdin (g w) = stdin w ∧ trace (g w) = trace w) →
  reads_le 0 (modify (λ w, emit e (g w))).
Proof.
  intros He Hg w. simpl. destruct (Hg w) as [-> ->].
  rewrite prompts_snoc, He, app_nil_r. lia.
Qed.

Lemma reads_le_input prompt : reads_le 1 (input prompt).
Proof.
  intros w. unfold input. destruct (stdin w) as [|a rest]; simpl.
  all: rewrite prompts_snoc; simpl; rewrite length_app; simpl; lia.
Qed.

Lemma reads_le_bind {A B} n k (m : M A) (f : A → M B) :
  reads_le n m → (∀ a, reads_le k (f a)) → reads_le (n + k) (m ≫= f).
Proof.
  intros Hm Hf w. specialize (Hm w). unfold mbind, M_bind.
  destruct (m w) as [[a|e] w1]; simpl in *.
  - specialize (Hf a w1). lia.
  - lia.
Qed.

Lemma reads_le_weaken {A} n n' (m : M A) :
  (n ≤ n')%nat → reads_le n m → reads_le n' m.
Proof. intros Hle Hm w. specialize (Hm w). lia. Qed.

Lemma reads_le_get_world {A} n (f : world → M A) :
  (∀ w0, reads_le n (f w0)) → reads_le n (get_world ≫= f).
Proof. intros Hf w. rewrite bind_get_world. apply Hf. Qed.

Lemma reads_le_for_each {A} n (l : list A) (body : A → M unit) :
  (∀ x, reads_le n (body x)) → reads_le (length l * n) (for_each l body).
Proof.
  intros Hbody. induction l as [|x l IH]; simpl; [apply reads_le_ret|].
  apply reads_le_bind; [apply Hbody | by intros _].
Qed.

Lemma reads_le_apply_change kv : reads_le 1 (apply_change kv).
Proof.
  destruct kv as [k v]. unfold apply_change.
  apply (reads_le_bind 1 0); [apply reads_le_input|]. intros a.
  apply reads_le_get_world. intros w0.
  destruct (truthy (strip a)).
  all: apply (reads_le_bind 0 0); [|intros _; apply reads_le_print].
  all: by apply (reads_le_file (λ w, with_env_file _ w)).
Qed.

Lemma reads_le_apply_removal k : reads_le 0 (apply_removal k).
Proof.
  unfold apply_removal. apply reads_le_get_world. intros w0.
  apply (reads_le_bind 0 0); [|intros _; apply reads_le_print].
  by apply (reads_le_file (λ w, with_env_file _ w)).
Qed.

Lemma reads_le_ask_and_apply cs rs :
  reads_le (1 + length cs) (ask_and_apply cs rs).
Proof.
  unfold ask_and_apply.
  apply (reads_le_bind 1 (length cs)); [apply reads_le_input|]. intros a.
  destruct (is_yes a).
  - apply (reads_le_bind 0 (length cs)); [apply reads_le_print|]. intros _.
    apply (reads_le_bind 0 (length cs)); [apply reads_le_print|]. intros _.
    apply (reads_le_weaken (length cs * 1 + length rs * 0)); [lia|].
    apply reads_le_bind; [apply reads_le_for_each, reads_le_apply_change|].
    intros _. apply reads_le_for_each, reads_le_apply_removal.
  - apply (reads_le_weaken 0); [lia | apply reads_le_print].
Qed.

Lemma reads_le_report cs rs : reads_le 0 (report cs rs).
Proof.
  intros w. rewrite run_report. simpl.
  unfold prompts. rewrite filter_app.
  rewrite (filter_empty _ (report_events cs rs)); [rewrite app_nil_r; lia|].
  intros e He. unfold report_events in He.
  rewrite !elem_of_app in He. destruct He as [He | [He | He]].
  - by apply list_elem_of_singleton in He as ->.
  - by apply list_elem_of_fmap in He as [x [-> _]].
  - destruct (bool_decide (rs = [])); [by apply elem_of_nil in He|].
    by apply list_elem_of_singleton in He as ->.
Qed.

Lemma changes_length S T : (length (changes S T) ≤ length T)%nat.
Proof. apply length_filter. Qed.

Lemma reads_le_reconcile w :
  (length (stdin w) ≤ length (stdin (reconcile w).2)
                      + (1 + length (dotenv_values (template_file w))))%nat ∧
  (length (prompts (trace (reconcile w).2))
   ≤ length (prompts (trace w))
     + (1 + length (dotenv_values (template_file w))))%nat.
Proof.
  rewrite reconcile_unfold. simpl.
  destruct (_ && _); [simpl; lia|].
  pose proof (changes_length (dotenv_values (env_file w))
                (dotenv_values (template_file w))) as Hlen.
  match goal with
  | |- context [(report ?cs ?rs ≫= ?f) ?w0] =>
      pose proof (reads_le_bind 0 (1 + length cs) (report cs rs) f
                    (reads_le_report cs rs)
                    (λ _, reads_le_ask_and_apply cs rs) w0) as Hb
  end.
  simpl in Hb. simpl. lia.
Qed.

(** X3. A run of the reconciliation asks at most two questions more than the
    template has keys, and reads at most that many lines of input, however
    it ends: one for the creation of the store, one for the approval, and
    one per addition. *)
Theorem update_asks_bounded w :
  let n := (2 + length (dotenv_values (template_file w)))%nat in
  (length (stdin w) ≤ length (stdin (update_env_from_template w).2) + n)%nat ∧
  (length (prompts (trace (update_env_from_template w).2))
   ≤ length (prompts (trace w)) + n)%nat.
Proof.
  simpl. unfold update_env_from_template. rewrite bind_get_world.
  destruct (negb (is_file (template_file w))).
  { simpl. rewrite prompts_snoc. simpl. rewrite app_nil_r. lia. }
  destruct (negb (is_file (env_file w))).
  - destruct (stdin w) as [|a rest] eqn:Hin.
    + rewrite bind_input_nil by done. simpl.
      rewrite Hin, prompts_snoc, length_app. simpl. lia.
    + rewrite (bind_input_cons _ _ _ _ _ Hin).
      destruct (is_yes a).
      * unfold touch. rewrite bind_modify.
        match goal with
        | |- context [reconcile ?w0] =>
            pose proof (reads_le_reconcile w0) as Hr
        end.
        simpl in Hr. rewrite !prompts_snoc, !length_app in Hr. simpl in Hr.
        simpl. lia.
      * simpl. rewrite !prompts_snoc, !length_app. simpl. lia.
  - pose proof (reads_le_reconcile w). lia.
Qed.

(** ** The environment across a run *)

Lemma setdefault_lookup e kv k :
  setdefault_env e kv !! k = env_or e [kv] k.
Proof.
  destruct kv as [k0 v0]. unfold setdefault_env, env_or. simpl.
  destruct (e !! k0) as [v|] eqn:Hk0.
  - destruct (e !! k) as [v'|] eqn:Hk; [done|].
    rewrite bool_decide_eq_false_2; [done | congruence].
  - destruct (decide (k0 = k)) as [->|Hne].
    + rewrite lookup_insert_eq, Hk0. by rewrite bool_decide_eq_true_2.
    + rewrite lookup_insert_ne by done.
      destruct (e !! k); [done|]. by rewrite bool_decide_eq_false_2.
Qed.

Lemma foldl_setdefault_lookup d : ∀ e k,
  foldl setdefault_env e d !! k = env_or e d k.
Proof.
  induction d as [|[k0 v0] d IH]; intros e k; simpl.
  - unfold env_or. simpl. by destruct (e !! k).
  - rewrite IH. unfold env_or at 1. rewrite setdefault_lookup.
    unfold env_or. simpl. destruct (e !! k); [done|].
    by case_bool_decide.
Qed.

Section environ_kept.
Variable e : gmap string string.

Local Abbreviation P := (environ_is e).

Lemma keeps_environ_modify g :
  (∀ w, environ (g w) = environ w) → keeps P (modify g).
Proof.
  intros Hg. apply keeps_modify. intros w Hw.
  unfold environ_is. by rewrite Hg.
Qed.

Lemma keeps_environ_input prompt : keeps P (input prompt).
Proof. intros w Hw. unfold input. by destruct (stdin w). Qed.

Lemma keeps_environ_apply_change kv : keeps P (apply_change kv).
Proof.
  destruct kv as [k v]. unfold apply_change.
  apply keeps_bind; [apply keeps_environ_input|]. intros a.
  apply keeps_get_world. intros w0.
  destruct (truthy (strip a)).
  all: apply keeps_bind; [|intros _]; by apply keeps_environ_modify.
Qed.

Lemma keeps_environ_apply_removal k : keeps P (apply_removal k).
Proof.
  unfold apply_removal. apply keeps_get_world. intros w0.
  apply keeps_bind; [|intros _]; by apply keeps_environ_modify.
Qed.

Lemma keeps_environ_ask_and_apply cs rs : keeps P (ask_and_apply cs rs).
Proof.
  unfold ask_and_apply.
  apply keeps_bind; [apply keeps_environ_input|]. intros a.
  destruct (is_yes a); [|by apply keeps_environ_modify].
  do 2 (apply keeps_bind; [by apply keeps_environ_modify|]; intros _).
  apply keeps_bind; [|intros _]; apply keeps_for_each; intros x _.
  - apply keeps_environ_apply_change.
  - apply keeps_environ_apply_removal.
Qed.
End environ_kept.

Lemma reconcile_environ w : environ (reconcile w).2 = environ (loaded w).
Proof.
  rewrite reconcile_unfold. simpl. destruct (_ && _); [done|].
  erewrite bind_run; [|apply run_report].
  by apply (keeps_environ_ask_and_apply (environ (loaded w))).
Qed.

Lemma update_environ_cases w :
  environ (update_env_from_template w).2 = environ w ∨
  environ (update_env_from_template w).2 = environ (loaded w).
Proof.
  unfold update_env_from_template. rewrite bind_get_world.
  destruct (negb (is_file (template_file w))); [by left|].
  destruct (negb (is_file (env_file w))); [|right; apply reconcile_environ].
  destruct (stdin w) as [|a rest] eqn:Hin.
  - rewrite bind_input_nil by done. by left.
  - rewrite (bind_input_cons _ _ _ _ _ Hin).
    destruct (is_yes a); [|by left].
    unfold touch. rewrite bind_modify. right. by rewrite reconcile_environ.
Qed.

(** X4. Reconciliation never overrides a variable the environment already
    has, whatever the files hold, whatever is answered and however the run
    ends. *)
Theorem update_keeps_environ_bindings w k v :
  environ w !! k = Some v →
  environ (update_env_from_template w).2 !! k = Some v.
Proof.
  intros Hk. destruct (update_environ_cases w) as [-> | ->]; [done|].
  unfold loaded. simpl. rewrite foldl_setdefault_lookup.
  unfold env_or. by rewrite Hk.
Qed.

Lemma update_keeps_environ_bindings_witness :
  let w := fresh "/repo/.env" (Some [("K", "template")]) (Some [])
             {["K" := "exported"]} ["y"; "typed"] in
  environ (update_env_from_template w).2 !! "K" = Some "exported".
Proof.
  apply (update_keeps_environ_bindings
           (fresh "/repo/.env" (Some [("K", "template")]) (Some [])
              {["K" := "exported"]} ["y"; "typed"]) "K" "exported").
  reflexivity.
Defined.

(** X5. With both files there, the environment after the run is the old one
    completed by the template: a variable the environment had keeps its
    value, any other takes the template's value if the template has the
    key.  The store and the operator's answers play no part. *)
Theorem update_environ_from_template w T S k :
  template_file w = Some T → env_file w = Some S →
  environ (update_env_from_template w).2 !! k = env_or (environ w) T k.
Proof.
  intros HT HS. rewrite (update_both_files w T S) by done.
  rewrite reconcile_environ. unfold loaded. simpl.
  by rewrite foldl_setdefault_lookup, HT.
Qed.

Lemma update_environ_from_template_witness :
  let w := fresh "/repo/.env" (Some [("K", "default")]) (Some [])
             ∅ ["y"; "typed"] in
  environ (update_env_from_template w).2 !! "K" = Some "default" ∧
  env_file (update_env_from_template w).2 = Some [("K", "typed")].
Proof.
  split; [|reflexivity].
  exact (update_environ_from_template
           (fresh "/repo/.env" (Some [("K", "default")]) (Some []) ∅ ["y"; "typed"])
           [("K", "default")] [] "K" eq_refl eq_refl).
Defined.

(** ** The store outside the diff *)







(** ** Unique keys *)

Lemma keys_map_set (d : dict) k v :
  keys ((λ kv : string * string, if bool_decide (kv.1 = k) then (k, v) else kv) <$> d)
  = keys d.
Proof.
  unfold keys. induction d as [|[k0 v0] d IH]; [done|].
  rewrite !fmap_cons, IH. f_equal. simpl. by case_bool_decide.
Qed.

Lemma wf_dict_set d k v : wf_dict d → wf_dict (dict_set d k v).
Proof.
  unfold wf_dict, dict_set, dict_mem. intros Hd. case_bool_decide as Hin.
  - by rewrite keys_map_set.
  - unfold keys in *. rewrite fmap_app. simpl.
    apply NoDup_app. split; [done|]. split; [|apply NoDup_singleton].
    intros x Hx ->%list_elem_of_singleton. done.
Qed.

Lemma wf_dict_unset d k : wf_dict d → wf_dict (dict_unset d k).
Proof.
  unfold wf_dict, keys, dict_unset. intros Hd.
  eapply sublist_NoDup; [exact Hd|]. apply fmap_sublist, sublist_filter.
Qed.

Lemma keeps_wf_ask_and_apply cs rs :
  keeps (λ w, wf_dict (dotenv_values (env_file w))) (ask_and_apply cs rs).
Proof.
  assert (Hfo : file_only (λ w, wf_dict (dotenv_values (env_file w)))).
  { intros w w' Hf. by rewrite Hf. }
  unfold ask_and_apply.
  apply keeps_bind; [by apply keeps_input|]. intros a.
  destruct (is_yes a); [|by apply keeps_print].
  do 2 (apply keeps_bind; [by apply keeps_print|]; intros _).
  apply keeps_bind; [|intros _]; apply keeps_for_each.
  - intros [k v] _. unfold apply_change.
    apply keeps_bind; [by apply keeps_input|]. intros x.
    apply keeps_get_world. intros w0.
    destruct (truthy (strip x)).
    all: apply keeps_bind; [|intros _; by apply keeps_print].
    all: apply keeps_modify; intros w Hw; simpl; by apply wf_dict_set.
  - intros k _. unfold apply_removal. apply keeps_get_world. intros w0.
    apply keeps_bind; [|intros _; by apply keeps_print].
    apply keeps_modify. intros w Hw. simpl.
    destruct (env_file w) as [d|]; simpl in *; [by apply wf_dict_unset | done].
Qed.

(** X7. A store whose keys are unique has unique keys after the run, whatever
    is answered and however the run ends: an addition rewrites the line of
    its key or adds the one line, a removal only drops lines. *)
Theorem update_keeps_unique_keys w :
  wf_dict (dotenv_values (env_file w)) →
  wf_dict (dotenv_values (env_file (update_env_from_template w).2)).
Proof.
  intros Hwf.
  assert (Hrec : ∀ w0, wf_dict (dotenv_values (env_file w0)) →
                       wf_dict (dotenv_values (env_file (reconcile w0).2))).
  { intros w0 Hw0. rewrite reconcile_unfold. simpl.
    destruct (_ && _); [done|].
    erewrite bind_run; [|apply run_report].
    by apply keeps_wf_ask_and_apply. }
  unfold update_env_from_template. rewrite bind_get_world.
  destruct (negb (is_file (template_file w))); [done|].
  destruct (negb (is_file (env_file w))); [|by apply Hrec].
  destruct (stdin w) as [|a rest] eqn:Hin.
  - by rewrite bind_input_nil.
  - rewrite (bind_input_cons _ _ _ _ _ Hin).
    destruct (is_yes a); [|done].
    unfold touch. rewrite bind_modify. by apply Hrec.
Qed.

Lemma update_keeps_unique_keys_witness :
  let w := fresh "/repo/.env" (Some [("A", "1"); ("B", "2")])
             (Some [("B", ""); ("Z", "9")]) ∅ ["y"; "x"] in
  wf_dict (dotenv_values (env_file (update_env_from_template w).2)).
Proof.
  apply (update_keeps_unique_keys
           (fresh "/repo/.env" (Some [("A", "1"); ("B", "2")])
              (Some [("B", ""); ("Z", "9")]) ∅ ["y"; "x"])).
  solve_wf.
Defined.

(** ** A store created from the template *)

Lemma changes_empty_store T :
  changes [] T = filter (λ kv : string * string, kv.2 ≠ "") T.
Proof.
  unfold changes. apply list_filter_iff. intros [k v]. simpl. tauto.
Qed.

Lemma run_update_create w T a rest :
  template_file w = Some T → env_file w = None →
  stdin w = a :: rest → is_yes a = true →
  update_env_from_template w = update_env_from_template (store_created w rest).
Proof.
  intros HT HS Hin Hyes.
  rewrite (update_both_files (store_created w rest) T []) by done.
  unfold update_env_from_template.
  rewrite bind_get_world, HT, HS. simpl.
  rewrite (bind_input_cons _ _ _ _ _ Hin), Hyes.
  unfold touch. rewrite bind_modify. unfold store_created. simpl.
  by rewrite HS.
Qed.

(** X8. Creating the store from the template.  When the store file is
    absent, the operator agrees to create it and approves the merge, the
    file is touched once and then [set_key] is called once for each key of
    the template that has a non-empty default, in the template's order, with
    the default or the typed answer; nothing else is written. *)
Theorem store_created_from_template w T a b vals rest :
  template_file w = Some T → env_file w = None →
  filter (λ kv : string * string, kv.2 ≠ "") T ≠ [] →
  stdin w = a :: b :: vals ++ rest → is_yes a = true → is_yes b = true →
  length vals = length (filter (λ kv : string * string, kv.2 ≠ "") T) →
  writes (trace (update_env_from_template w).2) =
    writes (trace w) ++ Touch :: (uncurry SetKey <$> created_store T vals).
Proof.
  intros HT HS Hne Hin Hya Hyb Hlen.
  rewrite <-changes_empty_store in Hne, Hlen.
  rewrite (run_update_create w T a (b :: vals ++ rest)) by done.
  destruct (run_update_approved (store_created w (b :: vals ++ rest))
              T [] b vals rest) as (w1 & Hrun & _ & _ & _ & Htr);
    [done | done | by left | done | done | done |].
  rewrite Hrun. cbn [snd].
  rewrite Htr. unfold store_created at 1.
  cbn [trace emit with_env_file with_stdin].
  rewrite !writes_app, writes_report, writes_approval.
  rewrite writes_changes, writes_removals.
  change (writes [Prompt _]) with (@nil event).
  change (writes [Touch]) with [Touch].
  change (removed_keys [] T) with (@nil string).
  rewrite app_nil_r. cbn [app fmap list_fmap].
  rewrite app_nil_r, <-app_assoc. cbn [app]. do 2 f_equal.
  unfold created_store. rewrite <-changes_empty_store, <-list_fmap_compose.
  reflexivity.
Qed.

Lemma store_created_from_template_witness :
  let w := fresh "/repo/.env" (Some [("A", "1"); ("E", ""); ("B", "2")]) None
             ∅ ["y"; "Y"; ""; " v "; "left"] in
  writes (trace (update_env_from_template w).2)
    = [Touch; SetKey "A" "1"; SetKey "B" " v "].
Proof.
  exact (store_created_from_template
           (fresh "/repo/.env" (Some [("A", "1"); ("E", ""); ("B", "2")]) None
              ∅ ["y"; "Y"; ""; " v "; "left"])
           [("A", "1"); ("E", ""); ("B", "2")] "y" "Y" [""; " v "] ["left"]
           eq_refl eq_refl ltac:(discriminate) eq_refl eq_refl eq_refl eq_refl).
Defined.

(** X9. Creating the store and then declining the merge leaves the new
    store empty: the only write of the run is the creation of the file. *)
Theorem store_created_then_declined w T a b rest :
  template_file w = Some T → env_file w = None →
  filter (λ kv : string * string, kv.2 ≠ "") T ≠ [] →
  stdin w = a :: b :: rest → is_yes a = true → is_yes b = false →
  ∃ w1, update_env_from_template w = (Ok tt, w1) ∧
        env_file w1 = Some [] ∧
        stdin w1 = rest ∧
        writes (trace w1) = writes (trace w) ++ [Touch].
Proof.
  intros HT HS Hne Hin Hya Hnb.
  rewrite <-changes_empty_store in Hne.
  rewrite (run_update_create w T a (b :: rest)) by done.
  rewrite (run_update_diff (store_created w (b :: rest)) T []);
    [|done|done|by left].
  erewrite run_ask_declined; [|reflexivity|done].
  eexists. split; [reflexivity|]. cbn [env_file stdin trace store_created emit
    with_env_file with_stdin]. split; [done|]. split; [done|].
  rewrite !writes_app, writes_report.
  change (writes [Prompt _; Print _]) with (@nil event).
  change (writes [Touch]) with [Touch].
  change (writes [Prompt _]) with (@nil event).
  by rewrite !app_nil_r.
Qed.

Lemma store_created_then_declined_witness :
  let w := fresh "/repo/.env" (Some [("A", "1")]) None ∅ ["y"; "n"] in
  ∃ w1, update_env_from_template w = (Ok tt, w1) ∧
        env_file w1 = Some [] ∧
        stdin w1 = [] ∧
        writes (trace w1) = [Touch].
Proof.
  exact (store_created_then_declined
           (fresh "/repo/.env" (Some [("A", "1")]) None ∅ ["y"; "n"])
           [("A", "1")] "y" "n" []
           eq_refl eq_refl ltac:(discriminate) eq_refl eq_refl eq_refl).
Defined.

(** X10. When the input ends at the approval question the run raises
    [EOFError] before anything is written: the store is as it was. *)
Theorem eof_at_approval_writes_nothing w T S :
  template_file w = Some T → env_file w = Some S →
  changes S T ≠ [] ∨ removed_keys S T ≠ [] →
  stdin w = [] →
  ∃ w1, update_env_from_template w = (Raise EOFError, w1) ∧
        env_file w1 = Some S ∧
        writes (trace w1) = writes (trace w).
Proof.
  intros HT HS Hd Hin.
  rewrite (run_update_diff w T S) by done.
  rewrite run_ask_eof by done.
  eexists. split; [reflexivity|]. cbn [env_file trace emit]. split; [done|].
  rewrite !writes_app, writes_report.
  change (writes [Prompt _]) with (@nil event). by rewrite !app_nil_r.
Qed.

Lemma eof_at_approval_writes_nothing_witness :
  let w := fresh "/repo/.env" (Some [("A", "1")]) (Some [("Z", "9")]) ∅ [] in
  ∃ w1, update_env_from_template w = (Raise EOFError, w1) ∧
        env_file w1 = Some [("Z", "9")] ∧
        writes (trace w1) = [].
Proof.
  apply (eof_at_approval_writes_nothing
           (fresh "/repo/.env" (Some [("A", "1")]) (Some [("Z", "9")]) ∅ [])
           [("A", "1")] [("Z", "9")]); try reflexivity.
  left. discriminate.
Defined.

(** ** After an approved merge *)

Lemma get_dict_unset_same d k : dict_get (dict_unset d k) k = None.
Proof.
  apply dict_get_None. intros [_ Hne]%keys_dict_unset. done.
Qed.

Lemma get_merge_removals_in rs : ∀ d k,
  k ∈ rs → dict_get (merge_removals d rs) k = None.
Proof.
  induction rs as [|r rs IH]; intros d k Hk; [by apply elem_of_nil in Hk|].
  change (dict_get (merge_removals (dict_unset d r) rs) k = None).
  destruct (decide (k ∈ rs)) as [Hin|Hnin]; [by apply IH|].
  apply elem_of_cons in Hk as [->|Hk]; [|done].
  rewrite get_merge_removals_other by done. apply get_dict_unset_same.
Qed.

(** X11. After an approved and fully answered merge every key the template
    no longer mentions is gone from the store. *)
Theorem approved_merge_result w T S a vals rest :
  template_file w = Some T → env_file w = Some S →
  stdin w = a :: vals ++ rest → is_yes a = true →
  length vals = length (changes S T) →
  ∀ k, k ∈ removed_keys S T →
    UnsetKey k ∈ trace (update_env_from_template w).2 ∧
    dict_get (dotenv_values (env_file (update_env_from_template w).2)) k = None.
Proof.
  intros HT HS Hin Hyes Hlen k Hk.
  assert (Hd : changes S T ≠ [] ∨ removed_keys S T ≠ []).
  { right. intros Hnil. rewrite Hnil in Hk. by apply elem_of_nil in Hk. }
  destruct (run_update_approved w T S a vals rest)
    as (w1 & Hrun & _ & HS1 & _ & Htr); [done..|].
  rewrite Hrun. simpl. split.
  - rewrite Htr, !elem_of_app. do 4 right.
    apply (elem_of_concat _ (removal_events (env_path w) k)).
    + apply list_elem_of_fmap. by exists k.
    + apply list_elem_of_here.
  - rewrite HS1. simpl. unfold merged. by apply get_merge_removals_in.
Qed.

Lemma approved_merge_result_witness :
  let w := fresh "/repo/.env" (Some [("A", "1")]) (Some [("A", ""); ("B", "x")])
             ∅ ["y"; ""] in
  UnsetKey "B" ∈ trace (update_env_from_template w).2 ∧
  dict_get (dotenv_values (env_file (update_env_from_template w).2)) "B" = None.
Proof.
  apply (approved_merge_result
           (fresh "/repo/.env" (Some [("A", "1")]) (Some [("A", ""); ("B", "x")])
              ∅ ["y"; ""])
           [("A", "1")] [("A", ""); ("B", "x")] "y" [""] []); try reflexivity.
  apply list_elem_of_here.
Defined.

Lemma prompts_app t1 t2 : prompts (t1 ++ t2) = prompts t1 ++ prompts t2.
Proof. apply filter_app. Qed.

Lemma prompts_report cs rs : prompts (report_events cs rs) = [].
Proof.
  apply filter_empty. intros e He. unfold report_events in He.
  rewrite !elem_of_app in He. destruct He as [He | [He | He]].
  - by apply list_elem_of_singleton in He as ->.
  - by apply list_elem_of_fmap in He as [x [-> _]].
  - destruct (bool_decide (rs = [])); [by apply elem_of_nil in He|].
    by apply list_elem_of_singleton in He as ->.
Qed.

Lemma prompts_changes path xs :
  prompts (concat (change_events path <$> xs)) =
  (λ x : string * string * string,
     Prompt (x.1.1 +:+ " (" +:+ x.1.2 +:+ "): ")) <$> xs.
Proof.
  induction xs as [|[[k v] a] xs IH]; [done|].
  rewrite !fmap_cons. change (concat (?x :: ?l)) with (x ++ concat l).
  by rewrite prompts_app, IH.
Qed.

Lemma prompts_removals path rs :
  prompts (concat (removal_events path <$> rs)) = [].
Proof.
  induction rs as [|k rs IH]; [done|].
  rewrite !fmap_cons. change (concat (?x :: ?l)) with (x ++ concat l).
  by rewrite prompts_app, IH.
Qed.

(** X12. An approved merge asks one question for the whole merge and then one
    per addition, in the template's order, showing the key and its default;
    no question is asked about a removal. *)
Theorem approved_merge_prompts w T S a vals rest :
  template_file w = Some T → env_file w = Some S →
  stdin w = a :: vals ++ rest → is_yes a = true →
  length vals = length (changes S T) →
  changes S T ≠ [] ∨ removed_keys S T ≠ [] →
  prompts (trace (update_env_from_template w).2) =
    prompts (trace w)
    ++ Prompt "Do you want to apply changes to .env? (y/n) "
       :: ((λ kv : string * string, Prompt (kv.1 +:+ " (" +:+ kv.2 +:+ "): "))
             <$> changes S T).
Proof.
  intros HT HS Hin Hyes Hlen Hd.
  destruct (run_update_approved w T S a vals rest)
    as (w1 & Hrun & _ & _ & _ & Htr); [done..|].
  rewrite Hrun. simpl. rewrite Htr, !prompts_app, prompts_report.
  rewrite prompts_changes, prompts_removals, app_nil_r. simpl. f_equal.
  change (prompts approval_events)
    with [Prompt "Do you want to apply changes to .env? (y/n) "].
  simpl. f_equal.
  rewrite <-(fst_zip (changes S T) vals) at 2 by lia.
  by rewrite <-list_fmap_compose.
Qed.

Lemma approved_merge_prompts_witness :
  let w := fresh "/repo/.env" (Some [("A", "1"); ("B", "2")]) (Some [("Z", "9")])
             ∅ ["y"; "x"; ""] in
  prompts (trace (update_env_from_template w).2) =
    [Prompt "Do you want to apply changes to .env? (y/n) ";
     Prompt "A (1): "; Prompt "B (2): "].
Proof.
  apply (approved_merge_prompts
           (fresh "/repo/.env" (Some [("A", "1"); ("B", "2")]) (Some [("Z", "9")])
              ∅ ["y"; "x"; ""])
           [("A", "1"); ("B", "2")] [("Z", "9")] "y" ["x"; ""] []);
    try reflexivity.
  left. discriminate.
Defined.

(** ** What reconciliation leaves alone *)

Section projection_kept.
Context {X : Type} (proj : world → X).
Hypothesis proj_emit : ∀ e w, proj (emit e w) = proj w.
Hypothesis proj_stdin : ∀ l w, proj (with_stdin l w) = proj w.
Hypothesis proj_env_file : ∀ f w, proj (with_env_file f w) = proj w.
Hypothesis proj_environ : ∀ e w, proj (with_environ e w) = proj w.
Variable x : X.

Local Abbreviation P := (λ w : world, proj w = x).

Lemma kept_print line : keeps P (print line).
Proof. apply keeps_modify. intros w Hw. by rewrite proj_emit. Qed.

Lemma kept_input prompt : keeps P (input prompt).
Proof.
  intros w Hw. unfold input. destruct (stdin w); simpl.
  - by rewrite proj_emit.
  - by rewrite proj_stdin, proj_emit.
Qed.

Lemma kept_set_key k v : keeps P (set_key k v).
Proof. apply keeps_modify. intros w Hw. by rewrite proj_emit, proj_env_file. Qed.

Lemma kept_unset_key k : keeps P (unset_key k).
Proof. apply keeps_modify. intros w Hw. by rewrite proj_emit, proj_env_file. Qed.

Lemma kept_apply_change kv : keeps P (apply_change kv).
Proof.
  destruct kv as [k v]. unfold apply_change.
  apply keeps_bind; [apply kept_input|]. intros a.
  apply keeps_get_world. intros w0.
  destruct (truthy (strip a)).
  all: apply keeps_bind; [apply kept_set_key | intros _; apply kept_print].
Qed.

Lemma kept_apply_removal k : keeps P (apply_removal k).
Proof.
  unfold apply_removal. apply keeps_get_world. intros w0.
  apply keeps_bind; [apply kept_unset_key | intros _; apply kept_print].
Qed.

Lemma kept_ask_and_apply cs rs : keeps P (ask_and_apply cs rs).
Proof.
  unfold ask_and_apply.
  apply keeps_bind; [apply kept_input|]. intros a.
  destruct (is_yes a); [|apply kept_print].
  do 2 (apply keeps_bind; [apply kept_print|]; intros _).
  apply keeps_bind; [|intros _]; apply keeps_for_each; intros y _.
  - apply kept_apply_change.
  - apply kept_apply_removal.
Qed.

Lemma kept_report cs rs : keeps P (report cs rs).
Proof.
  unfold report.
  apply keeps_bind; [apply kept_print|]. intros _.
  apply keeps_bind; [|intros _].
  - destruct (negb _); [|apply keeps_ret].
    apply keeps_for_each. intros kv _. apply kept_print.
  - destruct (negb _); [apply kept_print | apply keeps_ret].
Qed.

Lemma kept_reconcile : keeps P reconcile.
Proof.
  intros w Hw. rewrite reconcile_unfold. simpl.
  assert (Hl : proj (loaded w) = x) by (unfold loaded; by rewrite proj_environ).
  destruct (_ && _); [exact Hl|].
  apply keeps_bind; [apply kept_report | | exact Hl].
  intros _. apply kept_ask_and_apply.
Qed.

Lemma kept_update : keeps P update_env_from_template.
Proof.
  unfold update_env_from_template. apply keeps_get_world. intros w0.
  destruct (negb (is_file (template_file w0))); [apply kept_print|].
  destruct (negb (is_file (env_file w0))); [|apply kept_reconcile].
  apply keeps_bind; [apply kept_input|]. intros a.
  destruct (is_yes a); [|apply kept_print].
  apply keeps_bind; [|intros _; apply kept_reconcile].
  apply keeps_modify. intros w Hw. by rewrite proj_emit, proj_env_file.
Qed.
End projection_kept.

(** X13. Reconciliation touches neither the [openai] module nor the table of
    singletons, whatever it is answered and however it ends. *)
Theorem update_frame w :
  openai (update_env_from_template w).2 = openai w ∧
  instances (update_env_from_template w).2 = instances w.
Proof.
  split.
  - by apply (kept_update openai).
  - by apply (kept_update instances).
Qed.

(** ** The singleton *)

Lemma Config_call_kept w self :
  instances w = Some self → Config_call w = (Ok self, w).
Proof. intros Hi. unfold Config_call. by rewrite bind_get_world, Hi. Qed.

Lemma Config_call_ok_instances w self w1 :
  Config_call w = (Ok self, w1) → instances w1 = Some self.
Proof.
  destruct (instances w) as [s0|] eqn:Hi.
  - rewrite (Config_call_kept w s0 Hi). by intros [= <- <-].
  - destruct (Config_init ∅ w) as [[s0|e] w0] eqn:Hinit.
    + rewrite (Config_call_first w s0 w0 Hi Hinit). by intros [= <- <-].
    + by rewrite (Config_call_raise w e w0 Hi Hinit).
Qed.

(** X14. Once [Config()] has returned an instance, every later call returns
    that same instance and does nothing else: no reconciliation, no prompt,
    no write, whatever has become of the files or the environment since. *)
Theorem Config_call_again w self w1 w2 :
  Config_call w = (Ok self, w1) →
  instances w2 = instances w1 →
  Config_call w2 = (Ok self, w2).
Proof.
  intros Hcall Hi. apply Config_call_kept.
  rewrite Hi. by eapply Config_call_ok_instances.
Qed.

Lemma Config_call_again_witness :
  let w := fresh "/repo/.env" None None ∅ [] in
  ∃ self w1, Config_call w = (Ok self, w1) ∧
    Config_call (with_env_file (Some [("NEW", "1")]) w1)
    = (Ok self, with_env_file (Some [("NEW", "1")]) w1).
Proof.
  edestruct (Config_init_ok (fresh "/repo/.env" None None ∅ []))
    as (self & w' & Hrun & _); [reflexivity..|].
  exists self, (with_instances (Some self) w').
  assert (Hcall : Config_call (fresh "/repo/.env" None None ∅ [])
                  = (Ok self, with_instances (Some self) w'))
    by (by apply Config_call_first).
  split; [exact Hcall|].
  exact (Config_call_again _ self _
           (with_env_file (Some [("NEW", "1")]) (with_instances (Some self) w'))
           Hcall eq_refl).
Defined.

Lemma Config_init_raise_inv w e w' :
  Config_init ∅ w = (Raise e, w') →
  update_env_from_template w = (Raise e, w') ∨
  (e = ValueError ∧ update_env_from_template w = (Ok tt, w')).
Proof.
  intros Hinit.
  destruct (update_env_from_template w) as [[[]|e0] w1] eqn:Hupd.
  - right.
    destruct (env_int 4000 (environ w1 !! "FAST_TOKEN_LIMIT")) as [f|] eqn:Hf.
    + destruct (env_int 8000 (environ w1 !! "SMART_TOKEN_LIMIT")) as [s|] eqn:Hs.
      * destruct (Config_init_ok w w1 f s Hupd Hf Hs) as (s0 & w0 & Hrun & _).
        rewrite Hrun in Hinit. done.
      * rewrite (Config_init_smart_invalid ∅ w w1 f Hupd Hf Hs) in Hinit.
        by injection Hinit as <- <-.
    + rewrite (Config_init_fast_invalid ∅ w w1 Hupd Hf) in Hinit.
      by injection Hinit as <- <-.
  - left. rewrite (Config_init_raise ∅ w e0 w1 Hupd) in Hinit.
    by injection Hinit as <- <-.
Qed.

(** X15. A first [Config()] that fails keeps no instance, so that the next
    call starts the construction again, and has assigned nothing on the
    [openai] module. *)
Theorem Config_call_failure w e w' :
  instances w = None →
  Config_call w = (Raise e, w') →
  instances w' = None ∧ openai w' = openai w.
Proof.
  intros Hi Hcall.
  destruct (Config_init ∅ w) as [[s0|e0] w0] eqn:Hinit.
  - by rewrite (Config_call_first w s0 w0 Hi Hinit) in Hcall.
  - rewrite (Config_call_raise w e0 w0 Hi Hinit) in Hcall.
    injection Hcall as <- <-.
    assert (∃ r, update_env_from_template w = (r, w0)) as [r Hupd].
    { destruct (Config_init_raise_inv w e0 w0 Hinit) as [Hupd | [_ Hupd]];
        eauto. }
    split.
    + rewrite <-Hi. by eapply update_instances.
    + change w0 with (r, w0).2. rewrite <-Hupd. by apply (kept_update openai).
Qed.

Lemma Config_call_failure_witness :
  let w := fresh "/repo/.env" (Some [("A", "1")]) (Some []) ∅ [] in
  (Config_call w).1 = Raise EOFError ∧
  instances (Config_call w).2 = None ∧
  openai (Config_call w).2 = ∅.
Proof.
  assert (Hcall : Config_call (fresh "/repo/.env" (Some [("A", "1")]) (Some []) ∅ [])
                  = (Raise EOFError,
                     (update_env_from_template
                        (fresh "/repo/.env" (Some [("A", "1")]) (Some []) ∅ [])).2)).
  { apply Config_call_raise; [reflexivity|].
    apply Config_init_raise. reflexivity. }
  destruct (Config_call_failure
              (fresh "/repo/.env" (Some [("A", "1")]) (Some []) ∅ [])
              _ _ eq_refl Hcall) as [Hnone Hopen].
  cbv zeta. rewrite Hcall. split; [done|]. split; [exact Hnone | exact Hopen].
Defined.

(** ** The setters *)

Lemma setters_set_attr name set :
  (name, set) ∈ setters → set = set_attr name.
Proof.
  unfold setters. intros Hin.
  repeat (apply elem_of_cons in Hin as [Hin|Hin];
          [by injection Hin as -> ->|]).
  by apply elem_of_nil in Hin.
Qed.

(** X16. A setter assigns its attribute on the kept instance and nothing
    else: the next [Config()] returns the instance with the new value and
    its other attributes as they were, without reconciling again; the store
    file, the environment and the [openai] module are not touched (so
    [set_openai_api_key] does not change [openai.api_key]). *)
Theorem setter_updates_singleton name set w self v :
  (name, set) ∈ setters →
  instances w = Some self →
  ∃ self' w',
    set v w = (Ok tt, w') ∧
    Config_call w' = (Ok self', w') ∧
    self' !! name = Some v ∧
    (∀ a, a ≠ name → self' !! a = self !! a) ∧
    env_file w' = env_file w ∧ environ w' = environ w ∧
    openai w' = openai w ∧ trace w' = trace w ∧ stdin w' = stdin w.
Proof.
  intros Hin Hi. rewrite (setters_set_attr name set Hin).
  exists (<[name := v]> self),
         (with_instances (<[name := v]> <$> instances w) w).
  split; [reflexivity|]. split.
  - apply Config_call_kept. simpl. by rewrite Hi.
  - split; [apply lookup_insert_eq|].
    split; [intros a Ha; by apply lookup_insert_ne|]. done.
Qed.

Lemma setter_updates_singleton_witness :
  let w := with_instances (Some {["debug_mode" := PyBool false;
                                  "openai_api_key" := PyNone]})
             (fresh "/repo/.env" None None ∅ []) in
  ∃ self' w',
    set_openai_api_key (PyStr "sk-1") w = (Ok tt, w') ∧
    Config_call w' = (Ok self', w') ∧
    self' !! "openai_api_key" = Some (PyStr "sk-1") ∧
    self' !! "debug_mode" = Some (PyBool false) ∧
    openai w' = ∅.
Proof.
  destruct (setter_updates_singleton "openai_api_key" set_openai_api_key
              (with_instances (Some {["debug_mode" := PyBool false;
                                      "openai_api_key" := PyNone]})
                 (fresh "/repo/.env" None None ∅ []))
              {["debug_mode" := PyBool false; "openai_api_key" := PyNone]}
              (PyStr "sk-1"))
    as (self' & w' & Hset & Hcall & Hnew & Hold & _ & _ & Hopenai & _).
  - unfold setters. do 6 apply list_elem_of_further. apply list_elem_of_here.
  - reflexivity.
  - exists self', w'. split; [exact Hset|]. split; [exact Hcall|].
    split; [exact Hnew|]. split; [|exact Hopenai].
    rewrite Hold by done. reflexivity.
Defined.

(** ** The fields of the registry *)

Lemma lookup_attrs_object l k : attrs_object l !! k = attrs_get l k.
Proof.
  induction l as [|[k' v] l IH]; simpl; [apply lookup_empty|].
  destruct (String.eqb_spec k' k) as [->|Hne].
  - apply lookup_insert_eq.
  - rewrite lookup_insert_ne by done. exact IH.
Qed.

Lemma bind_getenv_openai {A} key dflt (f : pyval → M A) o w :
  (getenv key dflt ≫= f) (with_openai o w)
  = f (from_option PyStr dflt (environ w !! key)) (with_openai o w).
Proof. reflexivity. Qed.

Lemma bind_set_openai_again {A} name v (f : () → M A) o w :
  (set_openai name v ≫= f) (with_openai o w)
  = f tt (with_openai (<[name := v]> o) w).
Proof. reflexivity. Qed.

Ltac step_fields :=
  repeat first
    [ rewrite bind_getenv_openai; cbv beta
    | rewrite bind_set_openai_again; cbv beta
    | rewrite bind_getenv; cbv beta
    | rewrite bind_set_openai; cbv beta
    | rewrite bind_ret; cbv beta
    | rewrite bind_assoc ].

Ltac reify_attrs m :=
  lazymatch m with
  | <[?k := ?v]> ?m' =>
      let r := reify_attrs m' in constr:((k, v) :: r)
  | _ => constr:(@nil (string * pyval))
  end.

Ltac table_cases Hobj Hin :=
  repeat (apply elem_of_cons in Hin as [Hin|Hin];
          [injection Hin as -> -> ->; rewrite Hobj; reflexivity|]);
  by apply elem_of_nil in Hin.

Ltac table_cases2 Hobj Hin :=
  repeat (apply elem_of_cons in Hin as [Hin|Hin];
          [injection Hin as -> ->; rewrite Hobj; reflexivity|]);
  by apply elem_of_nil in Hin.

Lemma Config_init_populated w w1 f s :
  update_env_from_template w = (Ok tt, w1) →
  env_int 4000 (environ w1 !! "FAST_TOKEN_LIMIT") = Some f →
  env_int 8000 (environ w1 !! "SMART_TOKEN_LIMIT") = Some s →
  ∃ self w', Config_init ∅ w = (Ok self, w') ∧ populated w1 self w'.
Proof.
  intros Hupd Hfast Hsmart. unfold Config_init. cbv zeta.
  erewrite bind_run; [|exact Hupd]. step_init.
  rewrite (bind_py_int _ _ f) by done. step_init.
  rewrite (bind_py_int _ _ s) by done. step_init.
  unfold init_azure. rewrite lookup_insert_eq.
  unfold py_eq. change (py_truthy (default PyNone (Some (PyBool ?b)))) with b.
  rewrite !eq_True_no_default.
  case_bool_decide as Hazure; step_fields.
  all: eexists _, _; split; [reflexivity|].
  all: match goal with
       | |- populated _ ?obj _ =>
           let l := reify_attrs obj in
           assert (Hobj : ∀ k, obj !! k = attrs_get l k)
             by (intros k; change (attrs_object l !! k = attrs_get l k);
                 apply lookup_attrs_object);
           revert Hobj; generalize obj; intros self Hobj
       end.
  all: unfold populated; cbn [openai with_openai].
  all: split; [intros attr key dflt Hin; unfold string_fields in Hin;
               table_cases Hobj Hin|].
  all: split; [intros attr v Hin; unfold constant_fields in Hin;
               table_cases2 Hobj Hin|].
  all: split; [rewrite Hobj; lookup_attr; reflexivity|].
  all: split; [intros Hon | intros Hoff].
  all: try done.
  - rewrite !Hobj. lookup_attr. done.
  - intros name Hname. by rewrite lookup_insert_ne.
Qed.

Lemma Config_init_populated_inv w self w' :
  Config_init ∅ w = (Ok self, w') →
  populated (update_env_from_template w).2 self w'.
Proof.
  intros Hinit.
  destruct (Config_init_inv w self w' Hinit) as (f & s & Hf & Hs & _).
  destruct (update_env_from_template w) as [[[]|e] w1] eqn:Hupd.
  - simpl in *.
    destruct (Config_init_populated w w1 f s Hupd Hf Hs) as (s0 & w0 & Hrun & Hpop).
    rewrite Hrun in Hinit. by injection Hinit as <- <-.
  - by rewrite (Config_init_raise ∅ w e w1 Hupd) in Hinit.
Qed.

(** X17. Every plain field of the registry is what [os.getenv] returns for
    its key when construction completes: the value in the environment, else
    the default written in [__init__] ([None] where none is written).  The
    three mode flags start false and the user-agent header is the fixed one,
    whatever the environment holds. *)
Theorem registry_fields w self w' :
  Config_init ∅ w = (Ok self, w') →
  (∀ attr key dflt, (attr, key, dflt) ∈ string_fields →
     self !! attr
     = Some (from_option PyStr dflt
               (environ (update_env_from_template w).2 !! key))) ∧
  (∀ attr v, (attr, v) ∈ constant_fields → self !! attr = Some v).
Proof.
  intros Hinit.
  destruct (Config_init_populated_inv w self w' Hinit) as (Hs & Hc & _).
  by split.
Qed.

Lemma registry_fields_witness :
  let w := fresh "/repo/.env" None None {["REDIS_PORT" := "7000"]} [] in
  ∃ self w', Config_init ∅ w = (Ok self, w') ∧
             self !! "redis_port" = Some (PyStr "7000") ∧
             self !! "redis_host" = Some (PyStr "localhost") ∧
             self !! "openai_api_key" = Some PyNone ∧
             self !! "debug_mode" = Some (PyBool false).
Proof.
  edestruct (Config_init_ok
               (fresh "/repo/.env" None None {["REDIS_PORT" := "7000"]} []))
    as (self & w' & Hrun & _); [reflexivity..|].
  destruct (registry_fields _ self w' Hrun) as [Hs Hc].
  exists self, w'. split; [exact Hrun|]. split; [|split; [|split]].
  - apply (Hs "redis_port" "REDIS_PORT" (PyStr "6379")).
    unfold string_fields. do 12 apply list_elem_of_further. apply list_elem_of_here.
  - apply (Hs "redis_host" "REDIS_HOST" (PyStr "localhost")).
    unfold string_fields. do 11 apply list_elem_of_further. apply list_elem_of_here.
  - apply (Hs "openai_api_key" "OPENAI_API_KEY" PyNone).
    unfold string_fields. do 2 apply list_elem_of_further. apply list_elem_of_here.
  - apply Hc. apply list_elem_of_here.
Defined.

(** X18. With [use_azure] true the three provider attributes are what
    [os.getenv] returns for their keys ([None] when absent), and the
    [openai] module is set to the provider: [api_type] is "azure",
    [api_base] and [api_version] are the values of the two attributes. *)
Theorem azure_enabled w self w' :
  Config_init ∅ w = (Ok self, w') →
  self !! "use_azure" = Some (PyBool true) →
  (∀ attr key, (attr, key) ∈ azure_fields →
     self !! attr
     = Some (from_option PyStr PyNone
               (environ (update_env_from_template w).2 !! key))) ∧
  openai w' !! "api_type" = Some (PyStr "azure") ∧
  openai w' !! "api_base" = self !! "openai_api_base" ∧
  openai w' !! "api_version" = self !! "openai_api_version".
Proof.
  intros Hinit Hflag.
  destruct (Config_init_inv w self w' Hinit)
    as (f & s & _ & _ & _ & _ & Hazure & _ & _ & Hon & _).
  destruct (Config_init_populated_inv w self w' Hinit) as (_ & _ & _ & Hmod & _).
  rewrite Hazure in Hflag. injection Hflag as Hflag.
  apply bool_decide_eq_true in Hflag.
  destruct (Hon Hflag) as (Hbase & Hversion & Hid & _).
  destruct (Hmod Hflag) as (Htype & Hmbase & Hmversion).
  split; [|by rewrite Hbase, Hversion].
  intros attr key Hin. unfold azure_fields in Hin.
  repeat (apply elem_of_cons in Hin as [Hin|Hin]; [by injection Hin as -> ->|]).
  by apply elem_of_nil in Hin.
Qed.

Lemma azure_enabled_witness :
  let w := fresh "/repo/.env" None None
             {["USE_AZURE" := "True"; "OPENAI_AZURE_API_BASE" := "https://x"]} [] in
  ∃ self w', Config_init ∅ w = (Ok self, w') ∧
             self !! "openai_api_base" = Some (PyStr "https://x") ∧
             self !! "openai_api_version" = Some PyNone ∧
             openai w' !! "api_type" = Some (PyStr "azure") ∧
             openai w' !! "api_base" = Some (PyStr "https://x").
Proof.
  edestruct (Config_init_ok
               (fresh "/repo/.env" None None
                  {["USE_AZURE" := "True"; "OPENAI_AZURE_API_BASE" := "https://x"]} []))
    as (self & w' & Hrun & _ & _ & Hflag & _); [reflexivity..|].
  destruct (azure_enabled _ self w' Hrun Hflag) as (Hf & Htype & Hbase & _).
  assert (Hb : self !! "openai_api_base" = Some (PyStr "https://x")).
  { apply (Hf "openai_api_base" "OPENAI_AZURE_API_BASE"). apply list_elem_of_here. }
  exists self, w'. split; [exact Hrun|]. split; [exact Hb|]. split; [|split].
  - apply (Hf "openai_api_version" "OPENAI_AZURE_API_VERSION").
    apply list_elem_of_further, list_elem_of_here.
  - exact Htype.
  - by rewrite Hbase.
Defined.

(** X19. Construction hands the API key to the [openai] module:
    [openai.api_key] is the attribute [openai_api_key].  With [use_azure]
    false that is all it does to the module: every other attribute of
    [openai] is as before the call. *)
Theorem openai_module_after_init w self w' :
  Config_init ∅ w = (Ok self, w') →
  openai w' !! "api_key" = self !! "openai_api_key" ∧
  (self !! "use_azure" = Some (PyBool false) →
   ∀ name, name ≠ "api_key" → openai w' !! name = openai w !! name).
Proof.
  intros Hinit.
  destruct (Config_init_inv w self w' Hinit)
    as (f & s & _ & _ & _ & _ & Hazure & _).
  destruct (Config_init_populated_inv w self w' Hinit)
    as (Hs & _ & Hkey & _ & Hoff).
  split.
  - rewrite Hkey. symmetry.
    apply (Hs "openai_api_key" "OPENAI_API_KEY" PyNone).
    unfold string_fields. do 2 apply list_elem_of_further. apply list_elem_of_here.
  - intros Hflag name Hname. rewrite Hazure in Hflag. injection Hflag as Hflag.
    apply bool_decide_eq_false in Hflag. rewrite (Hoff Hflag name Hname).
    f_equal. by apply (kept_update openai).
Qed.

(** X20. The template's value reaches the field.  With both files there, a
    key the environment lacks and the template has gives its field the
    template's value: not the default written in [__init__], and not what
    the operator typed for the key during the merge. *)
Theorem template_value_reaches_field w T S self w' attr key dflt v :
  template_file w = Some T → env_file w = Some S →
  (attr, key, dflt) ∈ string_fields →
  environ w !! key = None → dict_get T key = Some v →
  Config_init ∅ w = (Ok self, w') →
  self !! attr = Some (PyStr v).
Proof.
  intros HT HS Hin Henv Hget Hinit.
  destruct (Config_init_populated_inv w self w' Hinit) as (Hs & _).
  rewrite (Hs attr key dflt Hin).
  rewrite (update_both_files w T S) by done.
  rewrite reconcile_environ. unfold loaded. simpl.
  rewrite foldl_setdefault_lookup, HT. unfold env_or. simpl.
  by rewrite Henv, Hget.
Qed.

Lemma template_value_reaches_field_witness :
  let w := fresh "/repo/.env" (Some [("MEMORY_BACKEND", "redis")]) (Some [])
             ∅ ["y"; "pinecone"] in
  ∃ self w', Config_init ∅ w = (Ok self, w') ∧
             env_file w' = Some [("MEMORY_BACKEND", "pinecone")] ∧
             self !! "memory_backend" = Some (PyStr "redis").
Proof.
  destruct (Config_init_ok
              (fresh "/repo/.env" (Some [("MEMORY_BACKEND", "redis")]) (Some [])
                 ∅ ["y"; "pinecone"])
              (update_env_from_template
                 (fresh "/repo/.env" (Some [("MEMORY_BACKEND", "redis")]) (Some [])
                    ∅ ["y"; "pinecone"])).2 4000 8000)
    as (self & w' & Hrun & _ & _ & _ & _ & _ & _ & _ & Hfile & _);
    [vm_compute; reflexivity..|].
  exists self, w'. split; [exact Hrun|].
  split; [rewrite Hfile; vm_compute; reflexivity|].
  apply (template_value_reaches_field
           (fresh "/repo/.env" (Some [("MEMORY_BACKEND", "redis")]) (Some [])
              ∅ ["y"; "pinecone"])
           [("MEMORY_BACKEND", "redis")] [] self w'
           "memory_backend" "MEMORY_BACKEND" (PyStr "local") "redis");
    try reflexivity; [|exact Hrun].
  unfold string_fields. do 15 apply list_elem_of_further. apply list_elem_of_here.
Defined.

(** ** A whole process *)

Lemma Config_init_environ w :
  environ (Config_init ∅ w).2 = environ (update_env_from_template w).2.
Proof.
  destruct (Config_init ∅ w) as [[self|e] w'] eqn:Hinit; simpl.
  - by destruct (Config_init_inv w self w' Hinit)
      as (f & s & _ & _ & _ & _ & _ & _ & _ & _ & _ & _ & Henv & _).
  - by destruct (Config_init_raise_inv w e w' Hinit) as [-> | [_ ->]].
Qed.

Lemma Config_call_environ w :
  instances w = None →
  environ (Config_call w).2 = environ (update_env_from_template w).2.
Proof.
  intros Hi. rewrite <-Config_init_environ.
  destruct (Config_init ∅ w) as [[self|e] w'] eqn:Hinit.
  - by rewrite (Config_call_first w self w' Hi Hinit).
  - by rewrite (Config_call_raise w e w' Hi Hinit).
Qed.

(** X21. Where a setting comes from.  In a process that imports the module
    and asks for the configuration, with both files there, [os.getenv] sees
    for every key the value exported in the environment, else the store's
    value as it was at import, else the template's; this holds whatever the
    operator answers and however the construction ends. *)
Theorem main_environ_precedence w T S k :
  template_file w = Some T → env_file w = Some S → instances w = None →
  environ (main w).2 !! k =
    match environ w !! k with
    | Some v => Some v
    | None => match dict_get S k with
              | Some v => Some v
              | None => dict_get T k
              end
    end.
Proof.
  intros HT HS Hi. unfold main, import_config.
  rewrite bind_assoc, bind_get_world. unfold load_dotenv. rewrite bind_modify.
  rewrite Config_call_environ by done.
  erewrite update_both_files by done.
  rewrite reconcile_environ. unfold loaded. simpl.
  rewrite !foldl_setdefault_lookup, HT, HS. unfold env_or. simpl.
  rewrite foldl_setdefault_lookup. unfold env_or.
  by destruct (environ w !! k), (dict_get S k).
Qed.

Lemma main_environ_precedence_witness :
  let w := fresh "/repo/.env"
             (Some [("A", "t"); ("B", "t"); ("C", "t")])
             (Some [("A", "s"); ("B", "s")])
             {["A" := "e"]} [] in
  environ (main w).2 !! "A" = Some "e" ∧
  environ (main w).2 !! "B" = Some "s" ∧
  environ (main w).2 !! "C" = Some "t".
Proof.
  split; [|split].
  - exact (main_environ_precedence
             (fresh "/repo/.env" (Some [("A", "t"); ("B", "t"); ("C", "t")])
                (Some [("A", "s"); ("B", "s")]) {["A" := "e"]} [])
             _ _ "A" eq_refl eq_refl eq_refl).
  - exact (main_environ_precedence
             (fresh "/repo/.env" (Some [("A", "t"); ("B", "t"); ("C", "t")])
                (Some [("A", "s"); ("B", "s")]) {["A" := "e"]} [])
             _ _ "B" eq_refl eq_refl eq_refl).
  - exact (main_environ_precedence
             (fresh "/repo/.env" (Some [("A", "t"); ("B", "t"); ("C", "t")])
                (Some [("A", "s"); ("B", "s")]) {["A" := "e"]} [])
             _ _ "C" eq_refl eq_refl eq_refl).
Defined.

Lemma openai_module_after_init_witness :
  let w := fresh "/repo/.env" None None {["OPENAI_API_KEY" := "sk-0"]} [] in
  ∃ self w', Config_init ∅ w = (Ok self, w') ∧
             openai w' !! "api_key" = Some (PyStr "sk-0") ∧
             openai w' !! "api_type" = None.
Proof.
  edestruct (Config_init_ok
               (fresh "/repo/.env" None None {["OPENAI_API_KEY" := "sk-0"]} []))
    as (self & w' & Hrun & _ & _ & Hflag & _); [reflexivity..|].
  destruct (openai_module_after_init _ self w' Hrun) as [Hkey Hoff].
  destruct (Config_init_populated_inv _ self w' Hrun) as (Hs & _).
  exists self, w'. split; [exact Hrun|]. split.
  - rewrite Hkey. apply (Hs "openai_api_key" "OPENAI_API_KEY" PyNone).
    unfold string_fields. do 2 apply list_elem_of_further. apply list_elem_of_here.
  - by rewrite (Hoff Hflag "api_type").
Defined.
